(** * The spectral-residual anomaly detector

    A shallow embedding of [msanomalydetector/spectral_residual.py] (class
    [SpectralResidual]) and the properties its specification states.

    Python floats are modelled by the real numbers [R]: every arithmetic
    operation is exact, there is no rounding, no infinity and no NaN.
    Python integers are [Z] (or [nat] where the code only counts from 0),
    lists, numpy arrays and the columns of a data frame are [list], complex
    numbers are pairs of reals; [Np.ndarray] keeps the element type of an
    array where it matters what the caller receives. Exceptions are values
    of [exn], carried by the [result] monad.

    The functions that the class imports from [msanomalydetector.util] and
    [msanomalydetector.boundary_utils] are not part of the sources: they are
    parameters of the development, each giving one value for every position
    of its input, as the specification describes them. *)

From Stdlib Require Import String QArith Reals Lra Lia ZArith Bool List.
Import ListNotations.

Set Implicit Arguments.

(** ** Exceptions *)

Inductive exn : Type :=
| ValueError (msg : string)
| IndexError (msg : string).

Inductive result (A : Type) : Type :=
| Ok (a : A)
| Raise (e : exn).

Arguments Ok {A} a.
Arguments Raise {A} e.

Definition bind {A B : Type} (c : result A) (k : A -> result B) : result B :=
  match c with
  | Ok a => k a
  | Raise e => Raise e
  end.

Notation "x <- c ;; k" := (bind c (fun x => k))
  (at level 61, c at next level, right associativity).

Definition succeeds {A : Type} (c : result A) : Prop := exists a, c = Ok a.

(** Comparison of floats, as a boolean. *)
Definition Rleb (x y : R) : bool := if Rle_dec x y then true else false.
Definition Rltb (x y : R) : bool := if Rlt_dec x y then true else false.
Definition Reqb (x y : R) : bool := if Req_dec_T x y then true else false.

(** ** Python lists *)

Module Py.

(** [PySlice_AdjustIndices] for a step of 1: a negative bound counts from
    the end, and both bounds are clamped to [0, len]. *)
Definition adjust_index (len i : Z) : Z :=
  if (i <? 0)%Z then Z.max (i + len) 0 else Z.min i len.

(** [l[start:stop]]; [None] is an omitted bound. *)
Definition slice {A : Type} (l : list A) (start stop : option Z) : list A :=
  let len := Z.of_nat (length l) in
  let lo := match start with None => 0%Z | Some i => adjust_index len i end in
  let hi := match stop with None => len | Some i => adjust_index len i end in
  firstn (Z.to_nat (hi - lo)) (skipn (Z.to_nat lo) l).

(** [l[i]]: a negative index counts from the end; out of range raises. *)
Definition getitem {A : Type} (l : list A) (i : Z) : result A :=
  let len := Z.of_nat (length l) in
  let j := if (i <? 0)%Z then (i + len)%Z else i in
  if ((j <? 0) || (len <=? j))%Z then Raise (IndexError "list index out of range")
  else match nth_error l (Z.to_nat j) with
       | Some x => Ok x
       | None => Raise (IndexError "list index out of range")
       end.

(** [enumerate(l)] *)
Definition enumerate {A : Type} (l : list A) : list (nat * A) :=
  combine (seq 0 (length l)) l.

(** [sum(l)]: starts from 0 and adds from the left. *)
Definition sum (l : list R) : R := fold_left Rplus l 0%R.

(** [[x] * n]: no element when [n <= 0]. *)
Definition replicate {A : Type} (x : A) (n : Z) : list A := repeat x (Z.to_nat n).

(** An elementwise operation on two arrays. numpy accepts it on arrays of
    one length; the detector only combines arrays of one length (see the
    lemmas on lengths below), so that no shape error is modelled. *)
Fixpoint zip_with {A B D : Type} (f : A -> B -> D) (l : list A) (m : list B) : list D :=
  match l, m with
  | x :: l', y :: m' => f x y :: zip_with f l' m'
  | _, _ => []
  end.

End Py.

(** ** numpy: complex arrays, the discrete Fourier transform, masks *)

Module Np.

Abbreviation complex := (R * R)%type.

(** The element type of an array. [np.fft.fft] and [np.fft.ifft] return a
    [complex128] array for every input, real or not; [.real], [.imag] and
    [np.sqrt] of a real array give [float64] arrays. *)
Inductive ndarray : Type :=
| float64 (a : list R)
| complex128 (a : list complex).

Definition real (c : complex) : R := fst c.
Definition imag (c : complex) : R := snd c.
Definition of_real (x : R) : complex := (x, 0%R).

Definition Cadd (a b : complex) : complex := (real a + real b, imag a + imag b)%R.
Definition Cmul (a b : complex) : complex :=
  (real a * real b - imag a * imag b, real a * imag b + imag a * real b)%R.
Definition Cscale (r : R) (a : complex) : complex := (r * real a, r * imag a)%R.

(** [cos t + i sin t] *)
Definition cis (t : R) : complex := (cos t, sin t).

Definition Csum (l : list complex) : complex := fold_right Cadd (0%R, 0%R) l.

(** Ordering of complex numbers as numpy compares them: by real part,
    then by imaginary part. *)
Definition Cleb (a b : complex) : bool :=
  Rltb (real a) (real b) || (Reqb (real a) (real b) && Rleb (imag a) (imag b)).

(** The transform of [xs] at frequency [k], with sign [s] in the exponent. *)
Definition dft_at (s : R) (xs : list complex) (k : nat) : complex :=
  Csum (map (fun '(n, x) =>
               Cmul x (cis (s * (2 * PI * INR k * INR n / INR (length xs)))))
            (Py.enumerate xs)).

Definition dft (xs : list complex) : list complex :=
  map (dft_at (-1) xs) (seq 0 (length xs)).

Definition idft (ys : list complex) : list complex :=
  map (fun n => Cscale (/ INR (length ys)) (dft_at 1 ys n)) (seq 0 (length ys)).

(** [np.fft.fft] and [np.fft.ifft] refuse an empty array. *)
Definition fft (xs : list complex) : result (list complex) :=
  match xs with
  | [] => Raise (ValueError "Invalid number of FFT data points (0) specified.")
  | _ => Ok (dft xs)
  end.

Definition ifft (ys : list complex) : result (list complex) :=
  match ys with
  | [] => Raise (ValueError "Invalid number of FFT data points (0) specified.")
  | _ => Ok (idft ys)
  end.

(** [np.where(mask)[0]]: the positions at which the mask holds. *)
Definition where_ (mask : list bool) : list nat :=
  map fst (filter snd (Py.enumerate mask)).

(** [a[idx] = v] for a list of positions [idx]. *)
Definition put {A : Type} (a : list A) (idx : list nat) (v : A) : list A :=
  map (fun '(i, x) => if existsb (Nat.eqb i) idx then v else x) (Py.enumerate a).

(** [np.clip(x, lo, hi)] = [minimum(maximum(x, lo), hi)] *)
Definition clip (x lo hi : R) : R := Rmin (Rmax x lo) hi.

End Np.

Import Np.

(** ** Names imported from [msanomalydetector.util] *)

(** Modelled from the spec: the enumeration [DetectMode] is declared in
    [util.py], which is not part of the sources; the specification gives its
    two members and the code names the second one. *)
Inductive DetectMode : Type :=
| anomaly_only
| anomaly_and_margin.

Definition DetectMode_eqb (a b : DetectMode) : bool :=
  match a, b with
  | anomaly_only, anomaly_only => true
  | anomaly_and_margin, anomaly_and_margin => true
  | _, _ => false
  end.

(** ** A concrete set of collaborators

    One instance of the functions that the detector imports, to run it on
    concrete series: a trailing moving average, a denoiser that keeps the
    series, unit boundary units, a score of 1 for a flagged point and 0 for
    the others, and a margin that shrinks linearly with the sensitivity. *)

Module Sample.

Definition EPS : R := (1 / 100000000)%R.

Definition average_at (values : list R) (n : Z) (i : nat) : R :=
  let t := Nat.min (Z.to_nat n) (S i) in
  (Py.sum (firstn t (skipn (S i - t) values)) / INR t)%R.

Definition deanomaly_at (values : list R) (anomaly_index : list nat) (i : nat) : R :=
  nth i values 0%R.

Definition boundary_unit_at (values : list R) (is_anomaly : list bool) (i : nat) : R :=
  1%R.

Definition anomaly_score_at (values : list R) (expected_values : list complex)
           (units : list R) (is_anomaly : list bool) (i : nat) : R :=
  if nth i is_anomaly false then 1%R else 0%R.

Definition calculate_margin (unit sensitivity : R) : R :=
  (unit * (100 - sensitivity) / 100)%R.

(** Three points, and a series that is too short. *)
Definition series : list (Z * R) := [(0%Z, 1%R); (1%Z, 2%R); (2%Z, 4%R)].
Definition short_series : list (Z * R) := [(0%Z, 1%R)].

(** A constant series, and the three points of [series] at other times. *)
Definition flat_series : list (Z * R) := [(0%Z, 2%R); (1%Z, 2%R); (2%Z, 2%R)].
Definition later_series : list (Z * R) := [(10%Z, 1%R); (11%Z, 2%R); (12%Z, 4%R)].

(** Four points: the band filter removes the coefficient of index 2. *)
Definition ramp_series : list (Z * R) :=
  [(0%Z, 1%R); (1%Z, 2%R); (2%Z, 4%R); (3%Z, 8%R)].

End Sample.

(** ** The anomaly frame *)

Section Detector.

Set Default Proof Using "Type".

(** The type of timestamps: the detector only copies them. *)
Variable timestamp : Type.

(** The columns that are present in [anomaly_and_margin] mode only. *)
Record MarginColumns : Type := {
  ExpectedValue : list complex;
  LowerBoundary : list complex;
  UpperBoundary : list complex
}.

(** The data frame returned by [detect], column by column; [AnomalyId] is
    its index. *)
Record Frame : Type := {
  AnomalyId : list nat;
  Timestamp : list timestamp;
  Value : list R;
  Mag : list R;
  AnomalyScore : list R;
  IsAnomaly : list bool;
  Margin : option MarginColumns
}.

(** [pd.DataFrame({...})] followed by the [IsAnomaly] column and
    [set_index(AnomalyId)]: the two series of the input fix the number of
    rows, and every array must have that length. *)
Definition DataFrame (ts : list timestamp) (vs : list R) (ids : list nat)
           (mags scores : list R) (flags : list bool) : result Frame :=
  let n := length ts in
  if (length vs =? n)%nat && (length ids =? n)%nat && (length mags =? n)%nat
     && (length scores =? n)%nat && (length flags =? n)%nat
  then Ok {| AnomalyId := ids; Timestamp := ts; Value := vs; Mag := mags;
             AnomalyScore := scores; IsAnomaly := flags; Margin := None |}
  else Raise (ValueError "array length does not match index length").

(** ** Collaborators that are not part of the sources *)

(** Modelled from the spec: the constant [EPS] of [util.py], "a small
    epsilon" to which near-zero magnitudes and baselines are clamped. *)
Variable EPS : R.

(** Modelled from the spec: [util.average_filter] is "a smoothing function
    producing, for each position, the average of a local window of
    surrounding values"; the windowing convention is left open, so the
    value at a position is a parameter. *)
Variable average_at : list R -> Z -> nat -> R.

Definition average_filter (values : list R) (n : Z) : list R :=
  map (average_at values n) (seq 0 (length values)).

(** Modelled from the spec: [util.deanomaly_entire] replaces the values at
    the anomalous positions by a denoised estimate and yields a clean
    series aligned with the input; the value at a position is a
    parameter. *)
Variable deanomaly_at : list R -> list nat -> nat -> R.

Definition deanomaly_entire (values : list R) (anomaly_index : list nat) : list R :=
  map (deanomaly_at values anomaly_index) (seq 0 (length values)).

(** Modelled from the spec: [boundary_utils.calculate_bounary_unit_entire]
    gives "one dispersion/scale estimate per point". *)
Variable boundary_unit_at : list R -> list bool -> nat -> R.

Definition calculate_bounary_unit_entire (values : list R) (is_anomaly : list bool) : list R :=
  map (boundary_unit_at values is_anomaly) (seq 0 (length values)).

(** Modelled from the spec: [boundary_utils.calculate_anomaly_scores] gives
    the rescaled anomaly score of every point from the values, the expected
    values, the units and the anomaly flags. *)
Variable anomaly_score_at : list R -> list complex -> list R -> list bool -> nat -> R.

Definition calculate_anomaly_scores (values : list R) (expected_values : list complex)
           (units : list R) (is_anomaly : list bool) : list R :=
  map (anomaly_score_at values expected_values units is_anomaly) (seq 0 (length values)).

(** Modelled from the spec: [boundary_utils.calculate_margin] "converts a
    unit and a sensitivity parameter into a symmetric margin width". *)
Variable calculate_margin : R -> R -> R.

(** ** The class [SpectralResidual] *)

Record SpectralResidual : Type := {
  __series__ : list (timestamp * R);
  __threshold__ : R;
  __mag_window : Z;
  __score_window : Z;
  __sensitivity : R;
  __detect_mode : DetectMode;
  __anomaly_frame : option Frame
}.

Definition __init__ (series : list (timestamp * R)) (threshold : R)
           (mag_window score_window : Z) (sensitivity : R)
           (detect_mode : DetectMode) : SpectralResidual :=
  {| __series__ := series;
     __threshold__ := threshold;
     __mag_window := mag_window;
     __score_window := score_window;
     __sensitivity := sensitivity;
     __detect_mode := detect_mode;
     __anomaly_frame := None |}.

(** [__init__] also stores [self.__series__['value'].tolist()] as
    [__values__]; the series is never modified afterwards, so this attribute
    is the column of values of [__series__]. *)
Definition __values__ (self : SpectralResidual) : list R := map snd (__series__ self).

Definition set_anomaly_frame (self : SpectralResidual) (f : Frame) : SpectralResidual :=
  {| __series__ := __series__ self;
     __threshold__ := __threshold__ self;
     __mag_window := __mag_window self;
     __score_window := __score_window self;
     __sensitivity := __sensitivity self;
     __detect_mode := __detect_mode self;
     __anomaly_frame := Some f |}.

(** *** [predict_next] and [extend_series] *)

Definition predict_next (values : list R) : result R :=
  if (Z.of_nat (length values) <=? 1)%Z
  then Raise (ValueError "data should contain at least 2 numbers")
  else
    v_last <- Py.getitem values (-1);;
    let n := Z.of_nat (length values) in
    let slopes := map (fun '(i, v) => ((v_last - v) / IZR (n - 1 - Z.of_nat i))%R)
                      (Py.enumerate (Py.slice values None (Some (-1)%Z))) in
    v1 <- Py.getitem values 1;;
    Ok (v1 + Py.sum slopes)%R.

Definition extend_series (values : list R) (extend_num look_ahead : Z) : result (list R) :=
  if (look_ahead <? 1)%Z
  then Raise (ValueError "look_ahead must be at least 1")
  else
    next <- predict_next (Py.slice values (Some (- look_ahead - 2)%Z) (Some (-1)%Z));;
    let extension := Py.replicate next extend_num in
    Ok (values ++ extension).

(** *** [spectral_residual_transform] *)

Definition magnitude (c : complex) : R := sqrt (real c ^ 2 + imag c ^ 2).

Definition spectral_residual_transform (self : SpectralResidual) (values : list R)
  : result (list R) :=
  trans <- fft (map of_real values);;
  let mag := map magnitude trans in
  let eps_index := where_ (map (fun m => Rleb m EPS) mag) in
  let mag := put mag eps_index EPS in
  let mag_log := map ln mag in
  let mag_log := put mag_log eps_index 0%R in
  let spectral := map exp (Py.zip_with Rminus mag_log
                                       (average_filter mag_log (__mag_window self))) in
  let trans_real := Py.zip_with Rdiv (Py.zip_with Rmult (map real trans) spectral) mag in
  let trans_imag := Py.zip_with Rdiv (Py.zip_with Rmult (map imag trans) spectral) mag in
  let trans_real := put trans_real eps_index 0%R in
  let trans_imag := put trans_imag eps_index 0%R in
  wave_r <- ifft (combine trans_real trans_imag);;
  Ok (map magnitude wave_r).

(** *** [generate_spectral_score] *)

Definition generate_spectral_score (self : SpectralResidual) (mags : list R) : list R :=
  let ave_mag := average_filter mags (__score_window self) in
  let ave_mag := put ave_mag (where_ (map (fun a => Rleb a EPS) ave_mag)) EPS in
  let raw_scores := Py.zip_with (fun m a => (Rabs (m - a) / a)%R) mags ave_mag in
  map (fun r => clip (r / 10) 0 1) raw_scores.

(** *** [calculate_expected_value] *)

(** [length * 3 / 8 >= i or i >= length * 5 / 8], with Python's true
    division: the two thresholds are exact rationals. *)
Definition band_keep (length i : nat) : bool :=
  Qle_bool (inject_Z (Z.of_nat i)) (inject_Z (Z.of_nat length) * 3 / 8)
  || Qle_bool (inject_Z (Z.of_nat length) * 5 / 8) (inject_Z (Z.of_nat i)).

Definition band_filter (length : nat) (coef : list R) : list R :=
  map (fun '(i, v) => if band_keep length i then v else 0%R) (Py.enumerate coef).

Definition calculate_expected_value (self : SpectralResidual) (anomaly_index : list nat)
  : result (list complex) :=
  let values := deanomaly_entire (__values__ self) anomaly_index in
  let length := length values in
  fft_coef <- fft (map of_real values);;
  let fft_real := band_filter length (map real fft_coef) in
  let fft_imag := band_filter length (map imag fft_coef) in
  exps <- ifft (combine fft_real fft_imag);;
  Ok exps.

(** What the caller of [calculate_expected_value] receives, with its
    element type: [exps] is the array of [np.fft.ifft], and line 174 returns
    it as it is, without [.real] or a magnitude. *)
Definition calculate_expected_value_array (self : SpectralResidual)
           (anomaly_index : list nat) : result ndarray :=
  exps <- calculate_expected_value self anomaly_index;;
  Ok (complex128 exps).

(** The spectrum that [calculate_expected_value] hands to the inverse
    transform: the transform of the cleaned series with the central band
    set to zero. *)
Definition band_filtered_spectrum (clean : list R) : list complex :=
  let fft_coef := dft (map of_real clean) in
  combine (band_filter (length clean) (map real fft_coef))
          (band_filter (length clean) (map imag fft_coef)).

(** *** [__detect] *)

(** Lines 55-64: the frame of the score-only pass. *)
Definition score_pass (self : SpectralResidual) : result Frame :=
  extended_series <- extend_series (__values__ self) 5 5;;
  transformed <- spectral_residual_transform self extended_series;;
  let mags := Py.slice transformed None (Some (Z.of_nat (length (__series__ self)))) in
  let anomaly_scores := generate_spectral_score self mags in
  DataFrame (map fst (__series__ self)) (map snd (__series__ self))
            (seq 0 (length anomaly_scores)) mags anomaly_scores
            (map (fun s => Rleb (__threshold__ self) s) anomaly_scores).

(** Lines 67-84: the columns added in [anomaly_and_margin] mode. *)
Definition margin_pass (self : SpectralResidual) (anomaly_frame : Frame) : result Frame :=
  let anomaly_index :=
    map fst (filter snd (combine (AnomalyId anomaly_frame) (IsAnomaly anomaly_frame))) in
  expected <- calculate_expected_value self anomaly_index;;
  let boundary_units :=
    calculate_bounary_unit_entire (__values__ self) (IsAnomaly anomaly_frame) in
  let scores := calculate_anomaly_scores (Value anomaly_frame) expected boundary_units
                                         (IsAnomaly anomaly_frame) in
  let margins := map (fun u => calculate_margin u (__sensitivity self)) boundary_units in
  let lower := Py.zip_with (fun e m => (real e - m, imag e)%R) expected margins in
  let upper := Py.zip_with (fun e m => (real e + m, imag e)%R) expected margins in
  let values := map of_real (Value anomaly_frame) in
  let flags := Py.zip_with andb (IsAnomaly anomaly_frame) (Py.zip_with Cleb lower values) in
  let flags := Py.zip_with andb flags (Py.zip_with Cleb values upper) in
  Ok {| AnomalyId := AnomalyId anomaly_frame;
        Timestamp := Timestamp anomaly_frame;
        Value := Value anomaly_frame;
        Mag := Mag anomaly_frame;
        AnomalyScore := scores;
        IsAnomaly := flags;
        Margin := Some {| ExpectedValue := expected;
                          LowerBoundary := lower;
                          UpperBoundary := upper |} |}.

Definition __detect (self : SpectralResidual) : result Frame :=
  anomaly_frame <- score_pass self;;
  if DetectMode_eqb (__detect_mode self) anomaly_and_margin
  then margin_pass self anomaly_frame
  else Ok anomaly_frame.

(** *** [detect] *)

(** What a call of [detect] did: it computed the frame, it returned the
    stored one, or the computation raised. *)
Inductive outcome : Type :=
| Computed (f : Frame)
| Cached (f : Frame)
| Raised (e : exn).

Definition returned (o : outcome) : result Frame :=
  match o with
  | Computed f => Ok f
  | Cached f => Ok f
  | Raised e => Raise e
  end.

Definition detect (self : SpectralResidual) : outcome * SpectralResidual :=
  match __anomaly_frame self with
  | None =>
      match __detect self with
      | Ok f => (Computed f, set_anomaly_frame self f)
      | Raise e => (Raised e, self)
      end
  | Some f => (Cached f, self)
  end.

(** [n] successive calls of [detect] on one instance: what each did, and
    the instance afterwards. *)
Fixpoint detect_calls (n : nat) (self : SpectralResidual) : list outcome * SpectralResidual :=
  match n with
  | O => ([], self)
  | S n' =>
      let '(o, self') := detect self in
      let '(os, self'') := detect_calls n' self' in
      (o :: os, self'')
  end.

(** How many of the calls computed a report. *)
Fixpoint computations (os : list outcome) : nat :=
  match os with
  | [] => 0
  | Computed _ :: os' => S (computations os')
  | _ :: os' => computations os'
  end.

(** ** The formula of the specification for [predict_next] *)

(** [f 0 + f 1 + ... + f (n-1)] *)
Fixpoint sigma (n : nat) (f : nat -> R) : R :=
  match n with
  | O => 0%R
  | S n' => (sigma n' f + f n')%R
  end.

(** The specification's words: [values[1]] plus the sum, over [i] from 0
    to [n-2], of [(values[n-1] - values[i]) / (n-1-i)]. *)
Definition predict_next_formula (values : list R) : R :=
  let n := length values in
  (nth 1 values 0 +
   sigma (n - 1) (fun i => (nth (n - 1) values 0 - nth i values 0) / INR (n - 1 - i)))%R.

(** The arithmetic progression [a + s d, a + (s+1) d, ...] of [n] values. *)
Definition progression (a d : R) (s n : nat) : list R :=
  map (fun i => (a + INR i * d)%R) (seq s n).

(** ** Facts about Python lists *)

Lemma map_seq_nth {A : Type} (f : nat -> A) (n i : nat) (d : A) :
  (i < n)%nat -> nth i (map f (seq 0 n)) d = f i.
Proof.
  intros Hi. rewrite (nth_indep _ d (f 0%nat)) by (rewrite length_map, length_seq; exact Hi).
  rewrite (map_nth f), seq_nth by assumption. reflexivity.
Qed.

Unset Implicit Arguments.

Lemma getitem_ok {A : Type} (l : list A) (i : Z) (d : A) :
  (- Z.of_nat (length l) <= i < Z.of_nat (length l))%Z ->
  Py.getitem l i = Ok (nth (Z.to_nat (i mod Z.of_nat (length l))) l d).
Proof.
  intros Hi. unfold Py.getitem.
  set (len := Z.of_nat (length l)) in *.
  assert (Hj : ((if (i <? 0)%Z then (i + len)%Z else i) = i mod len)%Z).
  { destruct (Z.ltb_spec i 0).
    - apply Z.mod_unique with (q := (-1)%Z); lia.
    - symmetry. apply Z.mod_small. lia. }
  rewrite Hj.
  assert (Hr : (0 <= i mod len < len)%Z) by (apply Z.mod_pos_bound; lia).
  destruct (Z.ltb_spec (i mod len) 0); [lia|].
  destruct (Z.leb_spec len (i mod len)); [lia|]. simpl.
  rewrite (nth_error_nth' l d); [reflexivity|]. unfold len in *. lia.
Qed.

Lemma slice_length {A : Type} (l : list A) (a b : Z) :
  Z.of_nat (length (Py.slice l (Some a) (Some b))) =
  Z.max 0 (Py.adjust_index (Z.of_nat (length l)) b - Py.adjust_index (Z.of_nat (length l)) a).
Proof.
  unfold Py.slice. rewrite length_firstn, length_skipn.
  unfold Py.adjust_index.
  destruct (Z.ltb_spec a 0); destruct (Z.ltb_spec b 0); lia.
Qed.

Lemma slice_prefix {A : Type} (l : list A) (n : nat) :
  Py.slice l None (Some (Z.of_nat n)) = firstn n l.
Proof.
  unfold Py.slice, Py.adjust_index. simpl skipn.
  destruct (Z.ltb_spec (Z.of_nat n) 0); [lia|].
  rewrite Z.sub_0_r.
  destruct (Nat.le_gt_cases n (length l)).
  - rewrite Z.min_l by lia. now rewrite Nat2Z.id.
  - rewrite Z.min_r by lia. rewrite Nat2Z.id.
    rewrite !firstn_all2; auto; lia.
Qed.

Lemma slice_drop_last {A : Type} (l : list A) :
  Py.slice l None (Some (-1)%Z) = firstn (length l - 1) l.
Proof.
  unfold Py.slice, Py.adjust_index. simpl skipn.
  destruct (Z.ltb_spec (-1) 0); [|lia]. f_equal. lia.
Qed.

Lemma slice_window {A : Type} (l : list A) (k : Z) :
  (0 < k)%Z ->
  Py.slice l (Some (- k)%Z) (Some (-1)%Z) =
  removelast (skipn (length l - Z.to_nat k) l).
Proof.
  intros Hk. unfold Py.slice, Py.adjust_index.
  destruct (Z.ltb_spec (- k) 0); [|lia].
  destruct (Z.ltb_spec (-1) 0); [|lia].
  replace (Z.to_nat (Z.max (- k + Z.of_nat (length l)) 0))
    with (length l - Z.to_nat k)%nat by lia.
  rewrite removelast_firstn_len. rewrite length_skipn. f_equal. lia.
Qed.

Lemma enumerate_map {A B : Type} (F : nat -> A -> B) (l : list A) (d : A) :
  map (fun '(i, v) => F i v) (Py.enumerate l) =
  map (fun i => F i (nth i l d)) (seq 0 (length l)).
Proof.
  unfold Py.enumerate.
  assert (H : forall s,
    map (fun '(i, v) => F i v) (combine (seq s (length l)) l) =
    map (fun i => F i (nth (i - s) l d)) (seq s (length l))).
  { induction l as [|x l IH]; intros s; simpl; [reflexivity|].
    rewrite Nat.sub_diag. f_equal. rewrite IH.
    apply map_ext_in. intros i Hi. apply in_seq in Hi.
    replace (i - s)%nat with (S (i - S s)) by lia. reflexivity. }
  rewrite H. apply map_ext. intros i. now rewrite Nat.sub_0_r.
Qed.

Lemma enumerate_length {A : Type} (l : list A) : length (Py.enumerate l) = length l.
Proof. unfold Py.enumerate. rewrite length_combine, length_seq. lia. Qed.

Lemma sum_fold_left (l : list R) (a : R) :
  fold_left Rplus l a = (a + fold_left Rplus l 0)%R.
Proof.
  revert a. induction l as [|x l IH]; intros a; simpl.
  - lra.
  - rewrite IH. rewrite (IH (0 + x)%R). lra.
Qed.

Lemma sum_map_seq (f : nat -> R) (n : nat) :
  Py.sum (map f (seq 0 n)) = sigma n f.
Proof.
  unfold Py.sum. induction n as [|n IH]; [reflexivity|].
  rewrite seq_S, map_app, fold_left_app. simpl. now rewrite IH.
Qed.

(** ** [predict_next] and [extend_series] *)

Lemma predict_next_short (values : list R) :
  (length values < 2)%nat ->
  predict_next values = Raise (ValueError "data should contain at least 2 numbers").
Proof.
  intros H. unfold predict_next.
  destruct (Z.leb_spec (Z.of_nat (length values)) 1); [reflexivity|lia].
Qed.

Lemma predict_next_value (values : list R) :
  (2 <= length values)%nat ->
  predict_next values = Ok (predict_next_formula values).
Proof.
  intros H. unfold predict_next, predict_next_formula.
  destruct (Z.leb_spec (Z.of_nat (length values)) 1); [lia|].
  rewrite (getitem_ok values (-1)%Z 0%R) by lia.
  rewrite (getitem_ok values 1%Z 0%R) by lia.
  cbn [bind].
  replace (Z.to_nat (-1 mod Z.of_nat (length values))) with (length values - 1)%nat.
  2:{ rewrite <- (Z.mod_unique (-1)%Z (Z.of_nat (length values)) (-1)%Z (Z.of_nat (length values) - 1)%Z); lia. }
  replace (Z.to_nat (1 mod Z.of_nat (length values))) with 1%nat.
  2:{ rewrite Z.mod_small; lia. }
  f_equal. f_equal.
  rewrite slice_drop_last.
  rewrite (enumerate_map (fun i v => ((nth (length values - 1) values 0 - v) /
               IZR (Z.of_nat (length values) - 1 - Z.of_nat i))%R) _ 0%R).
  rewrite length_firstn, Nat.min_l by lia.
  rewrite <- sum_map_seq. f_equal.
  apply map_ext_in. intros i Hi. apply in_seq in Hi.
  rewrite nth_firstn.
  destruct (Nat.ltb_spec i (length values - 1)); [|lia].
  f_equal. rewrite INR_IZR_INZ. f_equal. lia.
Qed.

Lemma window_length (values : list R) (look_ahead : Z) :
  (1 <= look_ahead)%Z ->
  length (Py.slice values (Some (- look_ahead - 2)%Z) (Some (-1)%Z)) =
  Nat.min (length values - 1) (Z.to_nat (look_ahead + 1)).
Proof.
  intros Hla. apply Nat2Z.inj. rewrite slice_length. unfold Py.adjust_index.
  destruct (Z.ltb_spec (- look_ahead - 2) 0); [|lia].
  destruct (Z.ltb_spec (-1) 0); lia.
Qed.

Lemma extend_series_value (values : list R) (extend_num look_ahead : Z) :
  (1 <= look_ahead)%Z ->
  extend_series values extend_num look_ahead =
  (next <- predict_next (Py.slice values (Some (- look_ahead - 2)%Z) (Some (-1)%Z));;
   Ok (values ++ repeat next (Z.to_nat extend_num))).
Proof.
  intros Hla. unfold extend_series.
  destruct (Z.ltb_spec look_ahead 1); [lia|]. reflexivity.
Qed.

Lemma extend_series_ok (values : list R) (extend_num look_ahead : Z) :
  (1 <= look_ahead)%Z -> (3 <= length values)%nat ->
  extend_series values extend_num look_ahead =
  Ok (values ++ repeat (predict_next_formula
                          (Py.slice values (Some (- look_ahead - 2)%Z) (Some (-1)%Z)))
                       (Z.to_nat extend_num)).
Proof.
  intros Hla Hn. rewrite extend_series_value by assumption.
  rewrite predict_next_value; [reflexivity|].
  rewrite window_length by assumption. lia.
Qed.

Lemma extend_series_short (values : list R) (extend_num look_ahead : Z) :
  (1 <= look_ahead)%Z -> (length values < 3)%nat ->
  extend_series values extend_num look_ahead =
  Raise (ValueError "data should contain at least 2 numbers").
Proof.
  intros Hla Hn. rewrite extend_series_value by assumption.
  rewrite predict_next_short; [reflexivity|].
  rewrite window_length by assumption. lia.
Qed.

(** C5: on at least two values [predict_next] returns [values[1]] plus the
    sum over [i] in [0..n-2] of [(values[n-1] - values[i]) / (n-1-i)]; on
    [[1.0, 2.0, 3.0]] that is exactly [4.0]. *)
Theorem predict_next_slope_formula (values : list R) :
  (2 <= length values)%nat ->
  predict_next values = Ok (predict_next_formula values) /\
  predict_next [1; 2; 3]%R = Ok 4%R.
Proof.
  intros H. split; [now apply predict_next_value|].
  rewrite predict_next_value by (simpl; lia).
  f_equal. unfold predict_next_formula. simpl. lra.
Qed.

(** C6: when [extend_series] succeeds (for a count [extend_num >= 0]) the
    result has [len(values) + extend_num] elements, begins with the input
    unchanged, and ends with [extend_num] copies of one value, which
    [predict_next] computes from the last [look_ahead + 2] values without
    the final one. *)
Theorem extend_series_shape (values : list R) (extend_num look_ahead : Z) (extended : list R) :
  (0 <= extend_num)%Z ->
  extend_series values extend_num look_ahead = Ok extended ->
  Z.of_nat (length extended) = (Z.of_nat (length values) + extend_num)%Z /\
  firstn (length values) extended = values /\
  exists next,
    predict_next (removelast (skipn (length values - Z.to_nat (look_ahead + 2)) values)) = Ok next /\
    skipn (length values) extended = repeat next (Z.to_nat extend_num).
Proof.
  intros Hnum Hext.
  assert (Hla : (1 <= look_ahead)%Z).
  { unfold extend_series in Hext. destruct (Z.ltb_spec look_ahead 1); [discriminate|lia]. }
  rewrite extend_series_value in Hext by assumption.
  replace (- look_ahead - 2)%Z with (- (look_ahead + 2))%Z in Hext by lia.
  rewrite slice_window in Hext by lia.
  destruct (predict_next _) as [next|e] eqn:Hnext; [|discriminate].
  cbn [bind] in Hext. injection Hext as <-.
  split; [|split].
  - rewrite length_app, repeat_length. lia.
  - rewrite firstn_app, Nat.sub_diag, firstn_all. simpl. apply app_nil_r.
  - exists next. split; [reflexivity|].
    rewrite skipn_app, Nat.sub_diag, skipn_all. reflexivity.
Qed.

(** C10: with [look_ahead >= 1], [extend_series] raises the input-validation
    error on every list of exactly two values, although [predict_next]
    accepts those two values; it succeeds exactly when the input has at
    least three values. *)
Theorem extend_series_needs_three (values : list R) (extend_num look_ahead : Z) :
  (1 <= look_ahead)%Z ->
  (length values = 2%nat ->
   succeeds (predict_next values) /\
   extend_series values extend_num look_ahead =
   Raise (ValueError "data should contain at least 2 numbers")) /\
  (succeeds (extend_series values extend_num look_ahead) <-> (3 <= length values)%nat).
Proof.
  intros Hla. split.
  - intros H2. split.
    + exists (predict_next_formula values). apply predict_next_value. lia.
    + apply extend_series_short; [assumption|lia].
  - split.
    + intros [r Hr]. destruct (Nat.le_gt_cases 3 (length values)) as [|Hlt]; [assumption|].
      rewrite extend_series_short in Hr by (assumption || lia). discriminate.
    + intros H3. eexists. now apply extend_series_ok.
Qed.

(** ** Facts about arrays *)

Lemma zip_with_length {A B D : Type} (f : A -> B -> D) (l : list A) (m : list B) :
  length (Py.zip_with f l m) = Nat.min (length l) (length m).
Proof.
  revert m. induction l as [|x l IH]; intros [|y m]; simpl; auto.
Qed.

Lemma zip_with_nth {A B D : Type} (f : A -> B -> D) (l : list A) (m : list B)
      (i : nat) (da : A) (db : B) (dd : D) :
  (i < length l)%nat -> (i < length m)%nat ->
  nth i (Py.zip_with f l m) dd = f (nth i l da) (nth i m db).
Proof.
  revert m i. induction l as [|x l IH]; intros [|y m] [|i]; simpl; intros; try lia; auto.
  apply IH; lia.
Qed.

Lemma put_length {A : Type} (a : list A) (idx : list nat) (v : A) :
  length (put a idx v) = length a.
Proof. unfold put. now rewrite length_map, enumerate_length. Qed.

Lemma dft_length (xs : list complex) : length (dft xs) = length xs.
Proof. unfold dft. now rewrite length_map, length_seq. Qed.

Lemma idft_length (ys : list complex) : length (idft ys) = length ys.
Proof. unfold idft. now rewrite length_map, length_seq. Qed.

Lemma fft_ok (xs : list complex) : xs <> [] -> fft xs = Ok (dft xs).
Proof. destruct xs; [congruence|reflexivity]. Qed.

Lemma ifft_ok (ys : list complex) : ys <> [] -> ifft ys = Ok (idft ys).
Proof. destruct ys; [congruence|reflexivity]. Qed.

Lemma nonempty_length {A : Type} (l : list A) : (0 < length l)%nat -> l <> [].
Proof. destruct l; simpl; [lia|congruence]. Qed.

Lemma average_filter_length (values : list R) (n : Z) :
  length (average_filter values n) = length values.
Proof. unfold average_filter. now rewrite length_map, length_seq. Qed.

Lemma deanomaly_entire_length (values : list R) (anomaly_index : list nat) :
  length (deanomaly_entire values anomaly_index) = length values.
Proof. unfold deanomaly_entire. now rewrite length_map, length_seq. Qed.

Lemma band_filter_length (n : nat) (coef : list R) :
  length (band_filter n coef) = length coef.
Proof. unfold band_filter. now rewrite length_map, enumerate_length. Qed.

Create Rewrite HintDb shape.
Hint Rewrite @zip_with_length @put_length dft_length idft_length
     average_filter_length deanomaly_entire_length band_filter_length
     @enumerate_length
     @length_map @length_seq @length_combine @length_app @repeat_length
     Nat.min_id : shape.

Ltac shape := autorewrite with shape; try lia.

(** ** The transform and the scores *)

Lemma spectral_residual_transform_ok (self : SpectralResidual) (values : list R) :
  values <> [] ->
  exists out, spectral_residual_transform self values = Ok out /\
              length out = length values.
Proof.
  intros Hne. unfold spectral_residual_transform.
  assert (Hlen : (0 < length values)%nat) by (destruct values; simpl; [congruence|lia]).
  rewrite fft_ok by (apply nonempty_length; shape).
  cbn [bind].
  rewrite ifft_ok by (apply nonempty_length; shape).
  cbn [bind]. eexists. split; [reflexivity|]. shape.
Qed.

Lemma generate_spectral_score_length (self : SpectralResidual) (mags : list R) :
  length (generate_spectral_score self mags) = length mags.
Proof. unfold generate_spectral_score. shape. Qed.

Lemma clip_unit_interval (x : R) : (0 <= clip x 0 1 <= 1)%R.
Proof.
  unfold clip. split.
  - apply Rmin_glb; [apply Rmax_r | lra].
  - apply Rmin_r.
Qed.

Lemma generate_spectral_score_bounded (self : SpectralResidual) (mags : list R) :
  Forall (fun s => 0 <= s <= 1)%R (generate_spectral_score self mags).
Proof.
  unfold generate_spectral_score. apply Forall_map, Forall_forall.
  intros r _. apply clip_unit_interval.
Qed.

(** ** The two passes of [__detect] *)

Ltac bind_inv H :=
  match type of H with
  | bind ?c _ = Ok _ =>
      let x := fresh "x" in
      let E := fresh "E" in
      destruct c as [x|] eqn:E; [cbn [bind] in H | discriminate H]
  end.

Lemma DataFrame_inv (ts : list timestamp) (vs : list R) (ids : list nat)
      (mags scores : list R) (flags : list bool) (f : Frame) :
  DataFrame ts vs ids mags scores flags = Ok f ->
  f = {| AnomalyId := ids; Timestamp := ts; Value := vs; Mag := mags;
         AnomalyScore := scores; IsAnomaly := flags; Margin := None |} /\
  length vs = length ts /\ length ids = length ts /\ length mags = length ts /\
  length scores = length ts /\ length flags = length ts.
Proof.
  unfold DataFrame. intros H.
  destruct (_ && _) eqn:E in H; [|discriminate].
  injection H as <-.
  repeat (apply andb_prop in E; destruct E as [E ?]).
  repeat match goal with H : (_ =? _)%nat = true |- _ => apply Nat.eqb_eq in H end.
  auto 10.
Qed.

Lemma DataFrame_ok (ts : list timestamp) (vs : list R) (ids : list nat)
      (mags scores : list R) (flags : list bool) :
  length vs = length ts -> length ids = length ts -> length mags = length ts ->
  length scores = length ts -> length flags = length ts ->
  DataFrame ts vs ids mags scores flags =
  Ok {| AnomalyId := ids; Timestamp := ts; Value := vs; Mag := mags;
        AnomalyScore := scores; IsAnomaly := flags; Margin := None |}.
Proof.
  intros H1 H2 H3 H4 H5. unfold DataFrame.
  rewrite H1, H2, H3, H4, H5, !Nat.eqb_refl. reflexivity.
Qed.

Lemma score_pass_inv (self : SpectralResidual) (f : Frame) :
  score_pass self = Ok f ->
  exists extended transformed,
    extend_series (__values__ self) 5 5 = Ok extended /\
    spectral_residual_transform self extended = Ok transformed /\
    let n := length (__series__ self) in
    let mags := firstn n transformed in
    let scores := generate_spectral_score self mags in
    length mags = n /\
    f = {| AnomalyId := seq 0 n;
           Timestamp := map fst (__series__ self);
           Value := map snd (__series__ self);
           Mag := mags;
           AnomalyScore := scores;
           IsAnomaly := map (fun s => Rleb (__threshold__ self) s) scores;
           Margin := None |}.
Proof.
  unfold score_pass. intros H.
  bind_inv H. bind_inv H. rename x into extended, x0 into transformed.
  exists extended, transformed. split; [reflexivity|]. split; [assumption|].
  rewrite slice_prefix in H.
  apply DataFrame_inv in H. destruct H as (-> & _ & _ & Hm & _ & _).
  rewrite length_map in Hm. cbv zeta. split; [exact Hm|].
  rewrite generate_spectral_score_length, Hm. reflexivity.
Qed.

Lemma score_pass_ok (self : SpectralResidual) :
  (3 <= length (__series__ self))%nat ->
  exists transformed,
    let n := length (__series__ self) in
    let mags := firstn n transformed in
    let scores := generate_spectral_score self mags in
    bind (extend_series (__values__ self) 5 5) (spectral_residual_transform self)
    = Ok transformed /\
    length transformed = (n + 5)%nat /\
    score_pass self =
    Ok {| AnomalyId := seq 0 n;
          Timestamp := map fst (__series__ self);
          Value := map snd (__series__ self);
          Mag := mags;
          AnomalyScore := scores;
          IsAnomaly := map (fun s => Rleb (__threshold__ self) s) scores;
          Margin := None |}.
Proof.
  intros H3. unfold score_pass.
  assert (Hlen : length (__values__ self) = length (__series__ self))
    by (unfold __values__; apply length_map).
  rewrite extend_series_ok by lia. cbn [bind].
  match goal with |- context [spectral_residual_transform self ?e] =>
    destruct (spectral_residual_transform_ok self e) as (tr & Htr & Hl)
  end.
  { intros Hnil. apply (f_equal (@length R)) in Hnil.
    rewrite length_app in Hnil. simpl in Hnil. lia. }
  rewrite Htr. cbn [bind]. exists tr.
  rewrite length_app, repeat_length in Hl. change (Z.to_nat 5) with 5%nat in Hl.
  cbv zeta. split; [reflexivity|]. split; [lia|].
  rewrite slice_prefix.
  assert (Hm : length (firstn (length (__series__ self)) tr) = length (__series__ self))
    by (rewrite length_firstn; lia).
  rewrite DataFrame_ok; rewrite ?generate_spectral_score_length, ?length_map,
    ?generate_spectral_score_length, ?length_seq, ?Hm; try reflexivity.
Qed.

Lemma calculate_expected_value_ok (self : SpectralResidual) (anomaly_index : list nat) :
  __values__ self <> [] ->
  calculate_expected_value self anomaly_index =
  Ok (idft (band_filtered_spectrum (deanomaly_entire (__values__ self) anomaly_index))).
Proof.
  intros Hne. unfold calculate_expected_value, band_filtered_spectrum.
  assert (Hlen : (0 < length (__values__ self))%nat)
    by (destruct (__values__ self); simpl; [congruence|lia]).
  rewrite fft_ok by (apply nonempty_length; shape). cbn [bind].
  rewrite ifft_ok by (apply nonempty_length; shape). reflexivity.
Qed.

Lemma band_filtered_spectrum_length (clean : list R) :
  length (band_filtered_spectrum clean) = length clean.
Proof. unfold band_filtered_spectrum. shape. Qed.

Lemma margin_pass_inv (self : SpectralResidual) (f0 f : Frame) :
  margin_pass self f0 = Ok f ->
  exists expected,
    calculate_expected_value self (map fst (filter snd (combine (AnomalyId f0) (IsAnomaly f0))))
    = Ok expected /\
    let units := calculate_bounary_unit_entire (__values__ self) (IsAnomaly f0) in
    let margins := map (fun u => calculate_margin u (__sensitivity self)) units in
    let lower := Py.zip_with (fun e m => (real e - m, imag e)%R) expected margins in
    let upper := Py.zip_with (fun e m => (real e + m, imag e)%R) expected margins in
    let values := map of_real (Value f0) in
    f = {| AnomalyId := AnomalyId f0;
           Timestamp := Timestamp f0;
           Value := Value f0;
           Mag := Mag f0;
           AnomalyScore := calculate_anomaly_scores (Value f0) expected units (IsAnomaly f0);
           IsAnomaly := Py.zip_with andb
                          (Py.zip_with andb (IsAnomaly f0) (Py.zip_with Cleb lower values))
                          (Py.zip_with Cleb values upper);
           Margin := Some {| ExpectedValue := expected;
                             LowerBoundary := lower;
                             UpperBoundary := upper |} |}.
Proof.
  unfold margin_pass. intros H. bind_inv H. injection H as <-.
  exists x. split; reflexivity.
Qed.

Lemma __detect_inv (self : SpectralResidual) (f : Frame) :
  __detect self = Ok f ->
  exists f0, score_pass self = Ok f0 /\
    ((__detect_mode self = anomaly_only /\ f = f0) \/
     (__detect_mode self = anomaly_and_margin /\ margin_pass self f0 = Ok f)).
Proof.
  unfold __detect. intros H. bind_inv H. exists x. split; [reflexivity|].
  destruct (__detect_mode self); simpl in H.
  - left. split; congruence.
  - right. split; congruence.
Qed.

Lemma detect_fresh (self : SpectralResidual) :
  __anomaly_frame self = None -> returned (fst (detect self)) = __detect self.
Proof.
  intros H. unfold detect. rewrite H. destruct (__detect self); reflexivity.
Qed.

(** ** Flags *)

Lemma zip_with_nth_true {A B : Type} (f : A -> B -> bool) (l : list A) (m : list B)
      (i : nat) (da : A) (db : B) :
  nth i (Py.zip_with f l m) false = true ->
  (i < length l)%nat /\ (i < length m)%nat /\ f (nth i l da) (nth i m db) = true.
Proof.
  revert m i. induction l as [|x l IH]; intros [|y m] [|i]; simpl; try discriminate.
  - intros H. repeat split; try lia. exact H.
  - intros H. destruct (IH m i H) as (? & ? & ?). repeat split; try lia. assumption.
Qed.

Lemma map_nth_true {A : Type} (f : A -> bool) (l : list A) (i : nat) (d : A) :
  nth i (map f l) false = true -> (i < length l)%nat /\ f (nth i l d) = true.
Proof.
  revert i. induction l as [|x l IH]; intros [|i]; simpl; try discriminate.
  - intros H. split; [lia|exact H].
  - intros H. destruct (IH i H). split; [lia|assumption].
Qed.

Lemma where_spec (mask : list bool) (i : nat) :
  In i (where_ mask) <-> nth i mask false = true.
Proof.
  unfold where_, Py.enumerate.
  assert (H : forall s, In i (map fst (filter snd (combine (seq s (length mask)) mask)))
                        <-> (s <= i)%nat /\ nth (i - s) mask false = true).
  { induction mask as [|b mask IH]; intros s; simpl.
    - split; [intros []|]. intros [_ H]. destruct (i - s)%nat; discriminate.
    - destruct b; simpl; rewrite IH.
      + split.
        * intros [<- | [Hs Hn]].
          -- rewrite Nat.sub_diag. split; [lia|reflexivity].
          -- split; [lia|]. replace (i - s)%nat with (S (i - S s)) by lia. exact Hn.
        * intros [Hs Hn]. destruct (Nat.eq_dec s i) as [->|Hne]; [now left|right].
          split; [lia|]. replace (i - s)%nat with (S (i - S s)) in Hn by lia. exact Hn.
      + split.
        * intros [Hs Hn]. split; [lia|].
          replace (i - s)%nat with (S (i - S s)) by lia. exact Hn.
        * intros [Hs Hn]. destruct (i - s)%nat as [|k] eqn:E; [discriminate|].
          split; [lia|]. replace (i - S s)%nat with k by lia. exact Hn. }
  rewrite H, Nat.sub_0_r. split; [intros [_ Hn]; exact Hn|]. split; [lia|assumption].
Qed.

Lemma Rleb_true (x y : R) : Rleb x y = true <-> (x <= y)%R.
Proof. unfold Rleb. destruct (Rle_dec x y); split; auto; discriminate. Qed.

Lemma Cleb_real (a b : complex) : Cleb a b = true -> (real a <= real b)%R.
Proof.
  unfold Cleb, Rltb, Reqb. intros H. apply orb_prop in H. destruct H as [H|H].
  - destruct (Rlt_dec (real a) (real b)); [lra|discriminate].
  - apply andb_prop in H. destruct H as [H _].
    destruct (Req_dec_T (real a) (real b)); [lra|discriminate].
Qed.

(** ** The report *)

(** X18: with a positive [EPS], every score of [generate_spectral_score]
    lies in [0, 1], and so does every score of a report computed in
    [anomaly_only] mode. In [anomaly_and_margin] mode the scores of the
    score-only pass lie in [0, 1] as well, but the report holds in their
    place the array that [calculate_anomaly_scores] returns for the values,
    the expected values, the boundary units and the flags of that pass, as
    it is. *)
Theorem spectral_scores_unit_interval (self : SpectralResidual) :
  (0 < EPS)%R ->
  (forall mags, Forall (fun s => 0 <= s <= 1)%R (generate_spectral_score self mags)) /\
  (forall f, __detect self = Ok f ->
     exists f0,
       score_pass self = Ok f0 /\
       Forall (fun s => 0 <= s <= 1)%R (AnomalyScore f0) /\
       (__detect_mode self = anomaly_only ->
        Forall (fun s => 0 <= s <= 1)%R (AnomalyScore f)) /\
       (__detect_mode self = anomaly_and_margin ->
        exists m,
          Margin f = Some m /\
          AnomalyScore f
          = calculate_anomaly_scores (Value f) (ExpectedValue m)
              (calculate_bounary_unit_entire (__values__ self) (IsAnomaly f0))
              (IsAnomaly f0))).
Proof.
  intros _. split; [intros; apply generate_spectral_score_bounded|].
  intros f Hf. apply __detect_inv in Hf. destruct Hf as (f0 & H0 & Hmode).
  assert (Hpre : Forall (fun s => 0 <= s <= 1)%R (AnomalyScore f0)).
  { apply score_pass_inv in H0. destruct H0 as (ext & tr & _ & _ & H0).
    cbv zeta in H0. destruct H0 as [_ ->]. cbn [AnomalyScore].
    apply generate_spectral_score_bounded. }
  exists f0. split; [exact H0|]. split; [exact Hpre|]. split.
  - intros Honly. destruct Hmode as [[_ ->] | [Hm _]]; [exact Hpre|congruence].
  - intros Hmargin. destruct Hmode as [[Hm _] | [_ Hm]]; [congruence|].
    apply margin_pass_inv in Hm. destruct Hm as (expected & _ & ->).
    eexists. split; reflexivity.
Qed.

Lemma margin_pass_flags (self : SpectralResidual) (f0 f : Frame) (m : MarginColumns)
      (i : nat) :
  margin_pass self f0 = Ok f ->
  Margin f = Some m ->
  nth i (IsAnomaly f) false = true ->
  nth i (IsAnomaly f0) false = true /\
  Cleb (nth i (LowerBoundary m) (0, 0)%R) (of_real (nth i (Value f0) 0%R)) = true /\
  Cleb (of_real (nth i (Value f0) 0%R)) (nth i (UpperBoundary m) (0, 0)%R) = true.
Proof.
  intros Hf Hm Hi.
  apply margin_pass_inv in Hf. destruct Hf as (expected & _ & Hf). cbv zeta in Hf.
  subst f. cbn [Margin IsAnomaly] in Hm, Hi. injection Hm as <-.
  cbn [LowerBoundary UpperBoundary].
  apply (zip_with_nth_true andb _ _ i false false) in Hi.
  destruct Hi as (_ & _ & Hi). apply andb_prop in Hi. destruct Hi as [H1 Hup].
  apply (zip_with_nth_true andb _ _ i false false) in H1.
  destruct H1 as (_ & _ & H1). apply andb_prop in H1. destruct H1 as [Hpre Hlow].
  apply (zip_with_nth_true Cleb _ _ i (0, 0)%R (of_real 0)) in Hlow.
  destruct Hlow as (_ & _ & Hlow).
  apply (zip_with_nth_true Cleb _ _ i (of_real 0) (0, 0)%R) in Hup.
  destruct Hup as (_ & _ & Hup).
  rewrite (map_nth of_real) in Hlow, Hup. auto.
Qed.

(** C4: in [anomaly_and_margin] mode a record is flagged in the final
    report only if it was flagged by the score-only pass (its score reached
    the threshold) and its value lies between its lower and its upper
    boundary; so the final anomaly set is included in the score-only one. *)
Theorem margin_narrows_anomalies (self : SpectralResidual) (f : Frame) :
  __detect_mode self = anomaly_and_margin ->
  __detect self = Ok f ->
  exists f0 m,
    score_pass self = Ok f0 /\ Margin f = Some m /\ Value f = Value f0 /\
    (forall i, nth i (IsAnomaly f) false = true ->
               nth i (IsAnomaly f0) false = true /\
               (__threshold__ self <= nth i (AnomalyScore f0) 0)%R /\
               Cleb (nth i (LowerBoundary m) (0, 0)%R) (of_real (nth i (Value f) 0%R)) = true /\
               Cleb (of_real (nth i (Value f) 0%R)) (nth i (UpperBoundary m) (0, 0)%R) = true /\
               (real (nth i (LowerBoundary m) (0, 0)) <= nth i (Value f) 0
                <= real (nth i (UpperBoundary m) (0, 0)))%R) /\
    incl (where_ (IsAnomaly f)) (where_ (IsAnomaly f0)).
Proof.
  intros Hmode Hf.
  apply __detect_inv in Hf. destruct Hf as (f0 & H0 & [[Hm _] | [_ Hm]]); [congruence|].
  destruct (margin_pass_inv _ _ _ Hm) as (expected & _ & Hshape). cbv zeta in Hshape.
  assert (Hmargin : exists m, Margin f = Some m) by (subst f; eexists; reflexivity).
  destruct Hmargin as [m Hmargin].
  assert (Hvalue : Value f = Value f0) by (subst f; reflexivity).
  clear Hshape. exists f0, m.
  split; [exact H0|]. split; [exact Hmargin|]. split; [exact Hvalue|]. split.
  - intros i Hi. rewrite Hvalue.
    destruct (margin_pass_flags self f0 f m i Hm Hmargin Hi) as (Hpre & Hlow & Hup).
    split; [exact Hpre|]. split; [|split; [exact Hlow|split; [exact Hup|]]].
    + apply score_pass_inv in H0. destruct H0 as (ext & tr & _ & _ & H0).
      cbv zeta in H0. destruct H0 as [_ ->]. cbn [IsAnomaly AnomalyScore] in *.
      apply (map_nth_true _ _ _ 0%R) in Hpre. destruct Hpre as [_ Hpre].
      now apply Rleb_true.
    + apply Cleb_real in Hlow, Hup. simpl in Hlow, Hup. split; assumption.
  - intros i Hi. apply where_spec in Hi. apply where_spec.
    now destruct (margin_pass_flags self f0 f m i Hm Hmargin Hi).
Qed.

Lemma margin_pass_ok (self : SpectralResidual) (f0 : Frame) :
  __values__ self <> [] ->
  exists f m, margin_pass self f0 = Ok f /\
    AnomalyId f = AnomalyId f0 /\ Timestamp f = Timestamp f0 /\
    Value f = Value f0 /\ Mag f = Mag f0 /\
    Margin f = Some m /\
    length (ExpectedValue m) = length (__values__ self) /\
    length (LowerBoundary m) = length (__values__ self) /\
    length (UpperBoundary m) = length (__values__ self) /\
    length (AnomalyScore f) = length (Value f0) /\
    length (IsAnomaly f) =
      Nat.min (length (IsAnomaly f0)) (Nat.min (length (__values__ self)) (length (Value f0))).
Proof.
  intros Hne. unfold margin_pass.
  rewrite calculate_expected_value_ok by assumption. cbn [bind].
  eexists. eexists. split; [reflexivity|].
  cbn [AnomalyId Timestamp Value Mag Margin ExpectedValue LowerBoundary UpperBoundary
       AnomalyScore IsAnomaly].
  unfold calculate_anomaly_scores, calculate_bounary_unit_entire.
  repeat split; cbn [ExpectedValue LowerBoundary UpperBoundary];
    autorewrite with shape; rewrite ?band_filtered_spectrum_length;
    autorewrite with shape; try reflexivity; lia.
Qed.

Lemma __detect_ok (series : list (timestamp * R)) (threshold : R)
      (mag_window score_window : Z) (sensitivity : R) (detect_mode : DetectMode) :
  (3 <= length series)%nat ->
  let self := __init__ series threshold mag_window score_window sensitivity detect_mode in
  let n := length series in
  exists f transformed,
    __detect self = Ok f /\
    bind (extend_series (map snd series) 5 5) (spectral_residual_transform self)
    = Ok transformed /\
    length transformed = (n + 5)%nat /\
    Mag f = firstn n transformed /\
    AnomalyId f = seq 0 n /\
    Timestamp f = map fst series /\
    Value f = map snd series /\
    length (AnomalyScore f) = n /\
    length (IsAnomaly f) = n /\
    match detect_mode with
    | anomaly_only => Margin f = None
    | anomaly_and_margin =>
        exists m, Margin f = Some m /\ length (ExpectedValue m) = n /\
                  length (LowerBoundary m) = n /\ length (UpperBoundary m) = n
    end.
Proof.
  intros H3 self n.
  destruct (score_pass_ok self) as (tr & Htr & Hl & Hpass); [exact H3|].
  cbv zeta in Htr, Hl, Hpass.
  change (__values__ self) with (map snd series) in *.
  change (__series__ self) with series in *.
  unfold __detect. rewrite Hpass. cbn [bind].
  assert (Hm : length (firstn n tr) = n) by (rewrite length_firstn; lia).
  destruct detect_mode; simpl DetectMode_eqb; cbv iota.
  - eexists. exists tr. split; [reflexivity|].
    cbn [Mag AnomalyId Timestamp Value AnomalyScore IsAnomaly Margin].
    rewrite length_map, generate_spectral_score_length. auto 10.
  - match goal with |- context [margin_pass self ?f0] =>
      destruct (margin_pass_ok self f0) as (f & m & Hf & Hid & Hts & Hv & Hmag & Hmg & He & Hlo & Hup & Hs & Hfl)
    end.
    { change (__values__ self) with (map snd series).
      intros Hnil. apply (f_equal (@length R)) in Hnil.
      rewrite length_map in Hnil. simpl in Hnil. lia. }
    cbn [AnomalyId Timestamp Value Mag IsAnomaly] in *.
    change (__values__ self) with (map snd series) in *.
    rewrite !length_map, ?generate_spectral_score_length in *.
    exists f, tr. split; [exact Hf|].
    rewrite Hid, Hts, Hv, Hmag, Hs, Hfl.
    fold n. rewrite Hm.
    repeat (split; [first [reflexivity | assumption | lia]|]).
    exists m. auto.
Qed.

Lemma detect_cached (self : SpectralResidual) (f : Frame) :
  __anomaly_frame self = Some f -> detect self = (Cached f, self).
Proof. intros H. unfold detect. now rewrite H. Qed.

Lemma detect_calls_cached (self : SpectralResidual) (f : Frame) (n : nat) :
  __anomaly_frame self = Some f -> detect_calls n self = (repeat (Cached f) n, self).
Proof.
  intros H. induction n as [|n IH]; simpl; [reflexivity|].
  now rewrite (detect_cached self f H), IH.
Qed.

Lemma detect_calls_raised (self : SpectralResidual) (e : exn) (n : nat) :
  __anomaly_frame self = None -> __detect self = Raise e ->
  detect_calls n self = (repeat (Raised e) n, self).
Proof.
  intros Hnone He. induction n as [|n IH]; simpl; [reflexivity|].
  unfold detect. now rewrite Hnone, He, IH.
Qed.

Lemma detect_calls_computed (self : SpectralResidual) (f : Frame) (n : nat) :
  __anomaly_frame self = None -> __detect self = Ok f ->
  detect_calls (S n) self = (Computed f :: repeat (Cached f) n, set_anomaly_frame self f).
Proof.
  intros Hnone Hf. simpl. unfold detect at 1. rewrite Hnone, Hf.
  now rewrite (detect_calls_cached (set_anomaly_frame self f) f n eq_refl).
Qed.

Lemma computations_repeat_cached (f : Frame) (n : nat) :
  computations (repeat (Cached f) n) = 0%nat.
Proof. induction n; simpl; auto. Qed.

Lemma computations_repeat_raised (e : exn) (n : nat) :
  computations (repeat (@Raised e) n) = 0%nat.
Proof. induction n; simpl; auto. Qed.

(** C2, for a series of at least three points: [detect] produces a report
    of exactly [N] records, in the order of the input, whose ids are
    [0, 1, ..., N-1]; the magnitudes are the first [N] of the [N + 5] that
    the transform of the extended series yields. On a shorter series
    [detect] raises the error of [predict_next] and stores nothing. *)
Theorem report_shape (series : list (timestamp * R)) (threshold : R)
      (mag_window score_window : Z) (sensitivity : R) (detect_mode : DetectMode) :
  let self := __init__ series threshold mag_window score_window sensitivity detect_mode in
  let n := length series in
  ((3 <= n)%nat ->
   exists f transformed,
     detect self = (Computed f, set_anomaly_frame self f) /\
     AnomalyId f = seq 0 n /\
     combine (Timestamp f) (Value f) = series /\
     length (Mag f) = n /\ length (AnomalyScore f) = n /\ length (IsAnomaly f) = n /\
     bind (extend_series (map snd series) 5 5) (spectral_residual_transform self)
     = Ok transformed /\
     length transformed = (n + 5)%nat /\
     Mag f = firstn n transformed) /\
  ((n < 3)%nat ->
   detect self = (Raised (ValueError "data should contain at least 2 numbers"), self)).
Proof.
  intros self n. split.
  - intros H3.
    destruct (__detect_ok series threshold mag_window score_window sensitivity detect_mode H3)
      as (f & tr & Hf & Htr & Hl & Hmag & Hid & Hts & Hv & Hs & Hfl & _).
    fold self in Hf, Htr. fold n in Hl, Hmag, Hid, Hs, Hfl.
    exists f, tr. split.
    { unfold detect. simpl __anomaly_frame. now rewrite Hf. }
    split; [exact Hid|]. split.
    { rewrite Hts, Hv. clear. induction series as [|[t v] s IH]; simpl; [reflexivity|].
      now rewrite IH. }
    rewrite Hmag, length_firstn. repeat split; try assumption; lia.
  - intros Hn. unfold detect, __detect, score_pass. simpl __anomaly_frame.
    rewrite extend_series_short; [reflexivity|lia|].
    unfold __values__. rewrite length_map. exact Hn.
Qed.

(** C3, for an instance whose computation succeeds: the first call of
    [detect] computes the report and stores it, and every later call
    returns that stored report without computing; a computation that
    raises stores nothing; in every case at most one call computes a
    report. *)
Theorem detect_memoized (self : SpectralResidual) :
  __anomaly_frame self = None ->
  (forall f, __detect self = Ok f ->
     forall n, detect_calls (S n) self
               = (Computed f :: repeat (Cached f) n, set_anomaly_frame self f)) /\
  (forall e, __detect self = Raise e ->
     forall n, detect_calls n self = (repeat (Raised e) n, self)) /\
  (forall n, (computations (fst (detect_calls n self)) <= 1)%nat).
Proof.
  intros Hnone. split; [|split].
  - intros f Hf n. now apply detect_calls_computed.
  - intros e He n. now apply detect_calls_raised.
  - intros n. destruct (__detect self) as [f|e] eqn:E.
    + destruct n as [|n]; [simpl; lia|].
      rewrite (detect_calls_computed self f n Hnone E). simpl.
      rewrite computations_repeat_cached. lia.
    + rewrite (detect_calls_raised self e n Hnone E). simpl.
      rewrite computations_repeat_raised. lia.
Qed.

(** C9: [predict_next] raises its input-validation error exactly when it
    is given fewer than two values, and raises nothing otherwise;
    [extend_series] raises its input-validation error when
    [look_ahead < 1]; the errors are not retried: [extend_series] passes
    the error of [predict_next] on, and a call of [detect] in which
    [extend_series] raises ends with that error and stores nothing. *)
Theorem input_validation_failures :
  (forall values,
      (length values < 2)%nat <->
      predict_next values = Raise (ValueError "data should contain at least 2 numbers")) /\
  (forall values e, predict_next values = Raise e -> (length values < 2)%nat) /\
  (forall values extend_num look_ahead,
      (look_ahead < 1)%Z ->
      extend_series values extend_num look_ahead
      = Raise (ValueError "look_ahead must be at least 1")) /\
  (forall values extend_num look_ahead e,
      (1 <= look_ahead)%Z ->
      predict_next (Py.slice values (Some (- look_ahead - 2)%Z) (Some (-1)%Z)) = Raise e ->
      extend_series values extend_num look_ahead = Raise e) /\
  (forall self e,
      __anomaly_frame self = None ->
      extend_series (__values__ self) 5 5 = Raise e ->
      detect self = (Raised e, self)).
Proof.
  assert (Hiff : forall values e, predict_next values = Raise e -> (length values < 2)%nat).
  { intros values e H. destruct (Nat.le_gt_cases 2 (length values)) as [H2|]; [|assumption].
    rewrite predict_next_value in H by assumption. discriminate. }
  split; [|split; [|split; [|split]]].
  - intros values. split; [apply predict_next_short | apply Hiff].
  - exact Hiff.
  - intros values extend_num look_ahead Hla. unfold extend_series.
    destruct (Z.ltb_spec look_ahead 1); [reflexivity|lia].
  - intros values extend_num look_ahead e Hla He.
    rewrite extend_series_value by assumption. now rewrite He.
  - intros self e Hnone He. unfold detect, __detect, score_pass.
    now rewrite Hnone, He.
Qed.

(** ** The band filter *)

Lemma band_keep_integers (n i : nat) :
  band_keep n i = ((8 * i <=? 3 * n)%nat || (5 * n <=? 8 * i)%nat).
Proof.
  unfold band_keep, Qle_bool. simpl. apply eq_true_iff_eq.
  rewrite !orb_true_iff, !Z.leb_le, !Nat.leb_le. lia.
Qed.

Lemma band_keep_true (n i : nat) :
  band_keep n i = true <->
  (inject_Z (Z.of_nat i) <= inject_Z (Z.of_nat n) * 3 / 8 \/
   inject_Z (Z.of_nat n) * 5 / 8 <= inject_Z (Z.of_nat i))%Q.
Proof.
  unfold band_keep. rewrite orb_true_iff, !Qle_bool_iff. reflexivity.
Qed.

Lemma band_keep_false (n i : nat) :
  band_keep n i = false <->
  (inject_Z (Z.of_nat n) * 3 / 8 < inject_Z (Z.of_nat i) /\
   inject_Z (Z.of_nat i) < inject_Z (Z.of_nat n) * 5 / 8)%Q.
Proof.
  rewrite <- not_true_iff_false, band_keep_true. split.
  - intros H. split; apply Qnot_le_lt; intros Hle; apply H; [left|right]; exact Hle.
  - intros [H1 H2] [H|H]; [apply (Qlt_not_le _ _ H1 H) | apply (Qlt_not_le _ _ H2 H)].
Qed.

Lemma band_filter_nth (n : nat) (coef : list R) (i : nat) :
  (i < length coef)%nat ->
  nth i (band_filter n coef) 0%R = if band_keep n i then nth i coef 0%R else 0%R.
Proof.
  intros Hi. unfold band_filter.
  rewrite (enumerate_map (fun i v => if band_keep n i then v else 0%R) coef 0%R).
  rewrite (nth_indep _ 0%R ((fun i => if band_keep n i then nth i coef 0%R else 0%R) 0%nat))
    by (shape).
  rewrite (map_nth (fun i => if band_keep n i then nth i coef 0%R else 0%R)).
  rewrite seq_nth by assumption. reflexivity.
Qed.

Lemma band_filtered_spectrum_nth (clean : list R) (i : nat) :
  (i < length clean)%nat ->
  nth i (band_filtered_spectrum clean) (0, 0)%R =
  if band_keep (length clean) i then nth i (dft (map of_real clean)) (0, 0)%R
  else (0, 0)%R.
Proof.
  intros Hi. unfold band_filtered_spectrum.
  rewrite combine_nth by shape.
  rewrite !band_filter_nth by shape.
  rewrite (map_nth real (dft (map of_real clean)) (0, 0)%R i : nth i (map real _) 0%R = _).
  rewrite (map_nth imag (dft (map of_real clean)) (0, 0)%R i : nth i (map imag _) 0%R = _).
  destruct (band_keep (length clean) i); [|reflexivity].
  now destruct (nth i (dft (map of_real clean)) (0, 0)%R).
Qed.

(** C8: the spectrum that the expected-value reconstruction inverts has,
    for a cleaned series of length [L], a zero coefficient (real and
    imaginary part) at every index [i] with [3L/8 < i < 5L/8], and the
    coefficient of the transform at every index with [i <= 3L/8] or
    [i >= 5L/8]; the thresholds are the exact quotients. *)
Theorem band_filter_zeroes_central_band (self : SpectralResidual) (anomaly_index : list nat) :
  let clean := deanomaly_entire (__values__ self) anomaly_index in
  let L := length clean in
  calculate_expected_value self anomaly_index = ifft (band_filtered_spectrum clean) /\
  length (band_filtered_spectrum clean) = L /\
  forall i, (i < L)%nat ->
    ((inject_Z (Z.of_nat L) * 3 / 8 < inject_Z (Z.of_nat i) /\
      inject_Z (Z.of_nat i) < inject_Z (Z.of_nat L) * 5 / 8)%Q ->
     nth i (band_filtered_spectrum clean) (0, 0)%R = (0, 0)%R) /\
    ((inject_Z (Z.of_nat i) <= inject_Z (Z.of_nat L) * 3 / 8 \/
      inject_Z (Z.of_nat L) * 5 / 8 <= inject_Z (Z.of_nat i))%Q ->
     nth i (band_filtered_spectrum clean) (0, 0)%R
     = nth i (dft (map of_real clean)) (0, 0)%R).
Proof.
  intros clean L. split; [|split].
  - unfold calculate_expected_value. fold clean. unfold band_filtered_spectrum.
    destruct (map of_real clean) eqn:E.
    + apply (f_equal (@length _)) in E. rewrite length_map in E.
      destruct clean; [reflexivity|discriminate].
    + rewrite <- E. rewrite fft_ok by (rewrite E; discriminate). cbn [bind].
      now destruct (ifft _).
  - apply band_filtered_spectrum_length.
  - intros i Hi. rewrite band_filtered_spectrum_nth by assumption. fold L. split.
    + intros H. apply band_keep_false in H. now rewrite H.
    + intros H. apply band_keep_true in H. now rewrite H.
Qed.

(** The thresholds are not rounded: for [L = 10] the index 6 lies below
    [5L/8 = 6.25] and is zeroed, although it reaches [5L/8] rounded down. *)
Example band_thresholds_exact :
  band_keep 10 6 = false /\ (5 * 10 / 8 <= 6)%nat /\
  map (band_keep 10) (seq 0 10)
  = [true; true; true; true; false; false; false; true; true; true].
Proof. repeat split. simpl. lia. Qed.

(** ** Sums *)

Lemma sigma_ext (n : nat) (f g : nat -> R) :
  (forall i, (i < n)%nat -> f i = g i) -> sigma n f = sigma n g.
Proof.
  induction n as [|n IH]; intros H; simpl; [reflexivity|].
  rewrite IH by (intros; apply H; lia). rewrite H by lia. reflexivity.
Qed.

Lemma sigma_opp (n : nat) (f : nat -> R) :
  sigma n (fun i => - f i)%R = (- sigma n f)%R.
Proof. induction n as [|n IH]; simpl; [lra|]. rewrite IH. lra. Qed.

Lemma sigma_zero (n : nat) (f : nat -> R) :
  (forall i, (i < n)%nat -> f i = 0%R) -> sigma n f = 0%R.
Proof.
  induction n as [|n IH]; intros H; simpl; [reflexivity|].
  rewrite IH by (intros; apply H; lia). rewrite H by lia. lra.
Qed.

Lemma sigma_shift (n : nat) (f : nat -> R) :
  sigma (S n) f = (f 0%nat + sigma n (fun i => f (S i)))%R.
Proof.
  induction n as [|n IH]; [simpl; lra|].
  change (sigma (S (S n)) f) with (sigma (S n) f + f (S n))%R.
  rewrite IH. simpl. lra.
Qed.

Lemma Csum_app (l m : list complex) : Csum (l ++ m) = Cadd (Csum l) (Csum m).
Proof.
  unfold Csum. induction l as [|a l IH]; simpl.
  - destruct (fold_right Cadd (0, 0)%R m) as [a b]. unfold Cadd. simpl.
    f_equal; lra.
  - rewrite IH. unfold Cadd. simpl. f_equal; lra.
Qed.

Lemma Csum_map_seq (F : nat -> complex) (n : nat) :
  Csum (map F (seq 0 n)) = (sigma n (fun i => real (F i)), sigma n (fun i => imag (F i))).
Proof.
  induction n as [|n IH]; [reflexivity|].
  rewrite seq_S, map_app, Csum_app, IH. unfold Cadd, Csum. simpl. f_equal; lra.
Qed.

(** ** The transform of a real series *)

Lemma dft_at_sigma (s : R) (xs : list complex) (k : nat) :
  dft_at s xs k =
  (sigma (length xs) (fun n =>
     real (nth n xs (0, 0)) * cos (s * (2 * PI * INR k * INR n / INR (length xs)))
     - imag (nth n xs (0, 0)) * sin (s * (2 * PI * INR k * INR n / INR (length xs)))),
   sigma (length xs) (fun n =>
     real (nth n xs (0, 0)) * sin (s * (2 * PI * INR k * INR n / INR (length xs)))
     + imag (nth n xs (0, 0)) * cos (s * (2 * PI * INR k * INR n / INR (length xs)))))%R.
Proof.
  unfold dft_at.
  rewrite (enumerate_map
             (fun n x => Cmul x (cis (s * (2 * PI * INR k * INR n / INR (length xs)))))
             xs (0, 0)%R).
  rewrite Csum_map_seq. reflexivity.
Qed.

Lemma cos_reflect (a : R) (m : nat) : cos (2 * INR m * PI - a) = cos a.
Proof.
  replace (2 * INR m * PI - a)%R with (- a + 2 * INR m * PI)%R by ring.
  now rewrite cos_period, cos_neg.
Qed.

Lemma sin_reflect (a : R) (m : nat) : sin (2 * INR m * PI - a) = (- sin a)%R.
Proof.
  replace (2 * INR m * PI - a)%R with (- a + 2 * INR m * PI)%R by ring.
  now rewrite sin_period, sin_neg.
Qed.

Lemma of_real_nth (x : list R) (n : nat) :
  nth n (map of_real x) (0, 0)%R = (nth n x 0%R, 0%R).
Proof. exact (map_nth of_real x 0%R n). Qed.

Lemma dft_nth (xs : list complex) (k : nat) :
  (k < length xs)%nat -> nth k (dft xs) (0, 0)%R = dft_at (-1) xs k.
Proof.
  intros Hk. unfold dft.
  rewrite (nth_indep _ (0, 0)%R (dft_at (-1) xs 0)) by shape.
  rewrite (map_nth (dft_at (-1) xs)), seq_nth by assumption. reflexivity.
Qed.

Lemma band_keep_symmetric (n k : nat) :
  (k <= n)%nat -> band_keep n (n - k) = band_keep n k.
Proof.
  intros Hk. rewrite !band_keep_integers. apply eq_true_iff_eq.
  rewrite !orb_true_iff, !Nat.leb_le. lia.
Qed.

(** ** The expected values *)

Lemma sigma_linear (n : nat) (a b : R) (f g : nat -> R) :
  sigma n (fun i => a * f i + b * g i)%R = (a * sigma n f + b * sigma n g)%R.
Proof. induction n as [|n IH]; simpl; [lra|]. rewrite IH. lra. Qed.

(** The inverse transform of the band-filtered spectrum of a real series,
    written out: at position [j], the sum over the kept frequencies [k] of
    the waves [x_n cos (2 pi k (j - n) / L)] and [x_n sin (2 pi k (j - n) / L)]. *)
Lemma expected_value_nth (clean : list R) (j : nat) :
  (j < length clean)%nat ->
  let L := length clean in
  let wave (f : R -> R) : R :=
    (/ INR L *
     sigma L (fun k =>
       if band_keep L k
       then sigma L (fun n => nth n clean 0 * f (2 * PI * INR k * (INR j - INR n) / INR L))
       else 0))%R in
  nth j (idft (band_filtered_spectrum clean)) (0, 0)%R = (wave cos, wave sin).
Proof.
  intros Hj L wave. unfold wave. clear wave.
  assert (HY : length (band_filtered_spectrum clean) = L)
    by apply band_filtered_spectrum_length.
  assert (HL : INR L <> 0%R) by (apply not_0_INR; lia).
  unfold idft. rewrite HY, map_seq_nth by exact Hj.
  rewrite dft_at_sigma, HY. unfold Cscale. cbn [real imag fst snd].
  f_equal; f_equal; apply sigma_ext; intros k Hk;
    rewrite band_filtered_spectrum_nth by exact Hk; fold L;
    destruct (band_keep L k); cbn [real imag fst snd]; try ring;
    rewrite dft_nth by (rewrite length_map; exact Hk);
    rewrite dft_at_sigma, length_map; fold L; cbn [real imag fst snd].
  - set (phi := (1 * (2 * PI * INR j * INR k / INR L))%R).
    rewrite (Rmult_comm _ (cos phi)), (Rmult_comm _ (sin phi)).
    replace (cos phi * _ - sin phi * _)%R with (cos phi * sigma L (fun n =>
       real (nth n (map of_real clean) (0, 0)) * cos (-1 * (2 * PI * INR k * INR n / INR L)) -
       imag (nth n (map of_real clean) (0, 0)) * sin (-1 * (2 * PI * INR k * INR n / INR L)))
       + (- sin phi) * sigma L (fun n =>
       real (nth n (map of_real clean) (0, 0)) * sin (-1 * (2 * PI * INR k * INR n / INR L)) +
       imag (nth n (map of_real clean) (0, 0)) * cos (-1 * (2 * PI * INR k * INR n / INR L))))%R
      by ring.
    rewrite <- sigma_linear. apply sigma_ext. intros n Hn.
    rewrite of_real_nth. cbn [real imag fst snd].
    replace (2 * PI * INR k * (INR j - INR n) / INR L)%R
      with (phi + -1 * (2 * PI * INR k * INR n / INR L))%R by (unfold phi; field; exact HL).
    rewrite cos_plus. ring.
  - set (phi := (1 * (2 * PI * INR j * INR k / INR L))%R).
    rewrite (Rmult_comm _ (cos phi)), (Rmult_comm _ (sin phi)).
    replace (sin phi * _ + cos phi * _)%R with (sin phi * sigma L (fun n =>
       real (nth n (map of_real clean) (0, 0)) * cos (-1 * (2 * PI * INR k * INR n / INR L)) -
       imag (nth n (map of_real clean) (0, 0)) * sin (-1 * (2 * PI * INR k * INR n / INR L)))
       + cos phi * sigma L (fun n =>
       real (nth n (map of_real clean) (0, 0)) * sin (-1 * (2 * PI * INR k * INR n / INR L)) +
       imag (nth n (map of_real clean) (0, 0)) * cos (-1 * (2 * PI * INR k * INR n / INR L))))%R
      by ring.
    rewrite <- sigma_linear. apply sigma_ext. intros n Hn.
    rewrite of_real_nth. cbn [real imag fst snd].
    replace (2 * PI * INR k * (INR j - INR n) / INR L)%R
      with (phi + -1 * (2 * PI * INR k * INR n / INR L))%R by (unfold phi; field; exact HL).
    rewrite sin_plus. ring.
Qed.


(** ** Arrays, position by position *)

Lemma put_nth {A : Type} (a : list A) (idx : list nat) (v : A) (i : nat) (d : A) :
  (i < length a)%nat ->
  nth i (put a idx v) d = if existsb (Nat.eqb i) idx then v else nth i a d.
Proof.
  intros Hi. unfold put.
  rewrite (enumerate_map (fun i x => if existsb (Nat.eqb i) idx then v else x) a d).
  now rewrite map_seq_nth.
Qed.

Lemma where_existsb (mask : list bool) (i : nat) :
  existsb (Nat.eqb i) (where_ mask) = nth i mask false.
Proof.
  apply eq_true_iff_eq. rewrite existsb_exists, <- where_spec. split.
  - intros (j & Hj & Hij). apply Nat.eqb_eq in Hij. now subst j.
  - intros Hi. exists i. split; [exact Hi|apply Nat.eqb_refl].
Qed.

Lemma put_where_nth {A : Type} (a : list A) (mask : list bool) (v : A) (i : nat) (d : A) :
  (i < length a)%nat ->
  nth i (put a (where_ mask) v) d = if nth i mask false then v else nth i a d.
Proof. intros Hi. now rewrite put_nth, where_existsb. Qed.

(** The baseline of [generate_spectral_score] at a position: the moving
    average, raised to [EPS] where it does not exceed it. *)
Lemma clamped_baseline_nth (ave_mag : list R) (i : nat) :
  (i < length ave_mag)%nat ->
  nth i (put ave_mag (where_ (map (fun a => Rleb a EPS) ave_mag)) EPS) 0%R
  = Rmax (nth i ave_mag 0%R) EPS.
Proof.
  intros Hi. rewrite put_where_nth by assumption.
  rewrite (nth_indep _ false ((fun a => Rleb a EPS) 0%R)) by (rewrite length_map; exact Hi).
  rewrite (map_nth (fun a => Rleb a EPS)). unfold Rleb.
  destruct (Rle_dec (nth i ave_mag 0%R) EPS) as [H|H].
  - now rewrite Rmax_right.
  - rewrite Rmax_left; [reflexivity|lra].
Qed.

Lemma generate_spectral_score_nth (self : SpectralResidual) (mags : list R) (i : nat) :
  (i < length mags)%nat ->
  nth i (generate_spectral_score self mags) 0%R =
  clip (Rabs (nth i mags 0 - Rmax (nth i (average_filter mags (__score_window self)) 0) EPS)
        / Rmax (nth i (average_filter mags (__score_window self)) 0) EPS / 10)%R 0 1.
Proof.
  intros Hi. unfold generate_spectral_score.
  set (ave := put _ _ EPS).
  assert (Hl : length ave = length mags) by (unfold ave; shape).
  rewrite (nth_indep _ 0%R ((fun r => clip (r / 10) 0 1) 0%R)) by shape.
  rewrite (map_nth (fun r => clip (r / 10) 0 1)).
  rewrite (zip_with_nth _ mags ave i 0%R 0%R 0%R) by lia.
  unfold ave. rewrite clamped_baseline_nth by shape. reflexivity.
Qed.

Lemma clip_one (x : R) : clip x 0 1 = 1%R <-> (1 <= x)%R.
Proof.
  unfold clip, Rmin, Rmax.
  destruct (Rle_dec x 0); destruct (Rle_dec _ 1); split; intros; lra.
Qed.

Lemma clip_zero (x : R) : clip x 0 1 = 0%R <-> (x <= 0)%R.
Proof.
  unfold clip, Rmin, Rmax.
  destruct (Rle_dec x 0); destruct (Rle_dec _ 1); split; intros; lra.
Qed.

(** X1: with a positive [EPS], the score at a position is [|m - b| / b / 10]
    clipped to [0, 1], where [m] is the magnitude there and [b] the moving
    average raised to at least [EPS]; it is 0 exactly when [m = b], and it
    saturates at 1 exactly when [m] is at least [10 b] away from [b]. *)
Theorem spectral_score_pointwise (self : SpectralResidual) (mags : list R) (i : nat) :
  (0 < EPS)%R ->
  (i < length mags)%nat ->
  let m := nth i mags 0%R in
  let b := Rmax (nth i (average_filter mags (__score_window self)) 0%R) EPS in
  let score := nth i (generate_spectral_score self mags) 0%R in
  (0 < b)%R /\
  score = clip (Rabs (m - b) / b / 10) 0 1 /\
  (score = 0%R <-> m = b) /\
  (score = 1%R <-> (10 * b <= Rabs (m - b))%R) /\
  ((Rabs (m - b) <= 10 * b)%R -> score = (Rabs (m - b) / (10 * b))%R).
Proof.
  intros Heps Hi m b score.
  assert (Hb : (0 < b)%R) by (unfold b; apply Rlt_le_trans with EPS; [assumption|apply Rmax_r]).
  assert (Hscore : score = clip (Rabs (m - b) / b / 10) 0 1)
    by (unfold score, m, b; now apply generate_spectral_score_nth).
  assert (Hx : (Rabs (m - b) / b / 10 = Rabs (m - b) / (10 * b))%R) by (field; lra).
  assert (Hpos : (0 <= Rabs (m - b))%R) by apply Rabs_pos.
  assert (H10 : (0 < 10 * b)%R) by lra.
  split; [exact Hb|]. split; [exact Hscore|]. rewrite Hscore, Hx. split; [|split].
  - rewrite clip_zero. split.
    + intros H. apply (Rmult_le_compat_r (10 * b)) in H; [|lra].
      unfold Rdiv in H. rewrite Rmult_assoc, Rinv_l, Rmult_1_r, Rmult_0_l in H by lra.
      assert (H0 : Rabs (m - b) = 0%R) by lra.
      destruct (Req_dec (m - b) 0) as [E|E]; [lra|]. apply Rabs_no_R0 in E. contradiction.
    + intros ->. rewrite Rminus_diag, Rabs_R0. unfold Rdiv. rewrite Rmult_0_l. lra.
  - rewrite clip_one. split.
    + intros H. apply (Rmult_le_compat_r (10 * b)) in H; [|lra].
      unfold Rdiv in H. rewrite Rmult_assoc, Rinv_l, Rmult_1_r in H by lra. lra.
    + intros H. apply (Rmult_le_reg_r (10 * b)); [lra|].
      unfold Rdiv. rewrite Rmult_assoc, Rinv_l, Rmult_1_r by lra. lra.
  - intros H. unfold clip.
    assert (H0 : (0 <= Rabs (m - b) / (10 * b))%R).
    { unfold Rdiv. apply Rmult_le_pos; [exact Hpos|]. left. now apply Rinv_0_lt_compat. }
    assert (H1 : (Rabs (m - b) / (10 * b) <= 1)%R).
    { apply (Rmult_le_reg_r (10 * b)); [lra|].
      unfold Rdiv. rewrite Rmult_assoc, Rinv_l, Rmult_1_r by lra. lra. }
    rewrite Rmax_left by lra. now rewrite Rmin_left.
Qed.

(** ** More on the transform *)

Lemma magnitude_nonneg (c : complex) : (0 <= magnitude c)%R.
Proof. unfold magnitude. apply sqrt_pos. Qed.

(** X2: [spectral_residual_transform] raises the error of [np.fft.fft] on an
    empty list; on any other list it returns as many magnitudes as it was
    given values, none of them negative. [EPS] is taken non-negative, so
    that every magnitude the code divides by or takes the logarithm of,
    outside the positions it overwrites, is positive. *)
Theorem spectral_residual_transform_shape (self : SpectralResidual) (values : list R) :
  (0 <= EPS)%R ->
  (values = [] ->
   spectral_residual_transform self values
   = Raise (ValueError "Invalid number of FFT data points (0) specified.")) /\
  (values <> [] ->
   exists mags, spectral_residual_transform self values = Ok mags /\
                length mags = length values /\
                Forall (fun m => 0 <= m)%R mags).
Proof.
  intros _. split.
  - intros ->. reflexivity.
  - intros Hne. unfold spectral_residual_transform.
    assert (Hlen : (0 < length values)%nat) by (destruct values; simpl; [congruence|lia]).
    rewrite fft_ok by (apply nonempty_length; shape). cbn [bind].
    rewrite ifft_ok by (apply nonempty_length; shape). cbn [bind].
    eexists. split; [reflexivity|]. split; [shape|].
    apply Forall_map, Forall_forall. intros c _. apply magnitude_nonneg.
Qed.

(** ** The threshold *)

Lemma all_false_nth (l : list bool) :
  (forall i, nth i l false = true -> False) -> Forall (eq false) l.
Proof.
  intros H. apply Forall_forall. intros b Hb.
  apply (In_nth _ _ false) in Hb. destruct Hb as (i & _ & Hi).
  destruct b; [exfalso; now apply (H i)|reflexivity].
Qed.

(** X3: no record is flagged when the threshold exceeds 1, in either mode;
    every record is flagged in [anomaly_only] mode when the threshold is at
    most 0. [EPS] is taken positive, so that every score is a quotient by
    a positive number. *)
Theorem threshold_extremes (self : SpectralResidual) (f : Frame) :
  (0 < EPS)%R ->
  __detect self = Ok f ->
  ((1 < __threshold__ self)%R -> Forall (eq false) (IsAnomaly f)) /\
  ((__threshold__ self <= 0)%R -> __detect_mode self = anomaly_only ->
   Forall (eq true) (IsAnomaly f)).
Proof.
  intros _ Hf. apply __detect_inv in Hf. destruct Hf as (f0 & H0 & Hmode).
  pose proof (score_pass_inv self f0 H0) as (ext & tr & _ & _ & Hshape).
  cbv zeta in Hshape. destruct Hshape as [_ Hshape].
  assert (Hpre : (1 < __threshold__ self)%R ->
                 forall i, nth i (IsAnomaly f0) false = true -> False).
  { intros Hthr i Hi. rewrite Hshape in Hi. cbn [IsAnomaly] in Hi.
    apply (map_nth_true _ _ _ 0%R) in Hi. destruct Hi as [Hlt Hi].
    apply Rleb_true in Hi.
    pose proof (generate_spectral_score_bounded self
                  (firstn (length (__series__ self)) tr)) as Hb.
    rewrite Forall_forall in Hb. specialize (Hb _ (nth_In _ 0%R Hlt)). lra. }
  split.
  - intros Hthr. apply all_false_nth. intros i Hi.
    destruct Hmode as [[_ ->] | [_ Hm]]; [now apply (Hpre Hthr i)|].
    pose proof (margin_pass_inv self f0 f Hm) as (expected & _ & Hf). cbv zeta in Hf.
    assert (Hmg : exists m, Margin f = Some m) by (rewrite Hf; eexists; reflexivity).
    destruct Hmg as [m Hmg].
    destruct (margin_pass_flags self f0 f m i Hm Hmg Hi) as (Hi0 & _).
    now apply (Hpre Hthr i).
  - intros Hthr Honly. destruct Hmode as [[_ ->] | [Hmargin _]]; [|congruence].
    rewrite Hshape. cbn [IsAnomaly]. apply Forall_map, Forall_forall. intros s Hs.
    symmetry. apply Rleb_true.
    pose proof (generate_spectral_score_bounded self
                  (firstn (length (__series__ self)) tr)) as Hb.
    rewrite Forall_forall in Hb. specialize (Hb _ Hs). lra.
Qed.

(** X4: in [anomaly_only] mode the magnitudes and the scores do not depend on
    the threshold, and raising the threshold can only remove anomalies. *)
Theorem threshold_monotone (series : list (timestamp * R)) (t1 t2 : R)
      (mag_window score_window : Z) (sensitivity : R) (f1 f2 : Frame) :
  (t1 <= t2)%R ->
  __detect (__init__ series t1 mag_window score_window sensitivity anomaly_only) = Ok f1 ->
  __detect (__init__ series t2 mag_window score_window sensitivity anomaly_only) = Ok f2 ->
  Mag f1 = Mag f2 /\ AnomalyScore f1 = AnomalyScore f2 /\
  incl (where_ (IsAnomaly f2)) (where_ (IsAnomaly f1)).
Proof.
  intros Ht H1 H2.
  apply __detect_inv in H1, H2.
  destruct H1 as (g1 & H1 & [[_ ->] | [Hm _]]); [|discriminate Hm].
  destruct H2 as (g2 & H2 & [[_ ->] | [Hm _]]); [|discriminate Hm].
  apply score_pass_inv in H1, H2.
  destruct H1 as (e1 & tr1 & He1 & Htr1 & H1). destruct H2 as (e2 & tr2 & He2 & Htr2 & H2).
  cbv zeta in H1, H2. destruct H1 as [_ ->]. destruct H2 as [_ ->].
  change (extend_series (map snd series) 5 5 = Ok e1) in He1.
  change (extend_series (map snd series) 5 5 = Ok e2) in He2.
  assert (e2 = e1) by congruence. subst e2.
  change (spectral_residual_transform
            (__init__ series t1 mag_window score_window sensitivity anomaly_only) e1
          = Ok tr2) in Htr2.
  assert (tr2 = tr1) by congruence. subst tr2.
  cbn [Mag AnomalyScore IsAnomaly __series__ __threshold__].
  split; [reflexivity|]. split; [reflexivity|].
  intros i Hi. apply where_spec in Hi. apply where_spec.
  apply (map_nth_true _ _ _ 0%R) in Hi. destruct Hi as [Hlt Hi].
  rewrite (nth_indep _ false ((fun s => Rleb t1 s) 0%R)) by (rewrite length_map; exact Hlt).
  rewrite (map_nth (fun s => Rleb t1 s)).
  apply Rleb_true in Hi. apply Rleb_true.
  change (generate_spectral_score
            (__init__ series t2 mag_window score_window sensitivity anomaly_only))
    with (generate_spectral_score
            (__init__ series t1 mag_window score_window sensitivity anomaly_only)) in Hi.
  simpl __series__ in *. simpl __threshold__ in *. lra.
Qed.

(** ** The margin columns, record by record *)

Lemma Cleb_spec (a b : complex) :
  Cleb a b = true <->
  (real a < real b \/ (real a = real b /\ imag a <= imag b))%R.
Proof.
  unfold Cleb, Rltb, Reqb, Rleb.
  destruct (Rlt_dec (real a) (real b)) as [Hlt|Hlt]; cbn [orb].
  - split; [intros _; now left|reflexivity].
  - destruct (Req_dec_T (real a) (real b)) as [Heq|Hne]; cbn [andb].
    + destruct (Rle_dec (imag a) (imag b)) as [Hle|Hle].
      * split; [intros _; right; now split|reflexivity].
      * split; [discriminate|]. intros [H|[_ H]]; [contradiction|contradiction].
    + split; [discriminate|]. intros [H|[H _]]; [contradiction|contradiction].
Qed.

Lemma score_pass_long (self : SpectralResidual) (f0 : Frame) :
  score_pass self = Ok f0 -> (3 <= length (__series__ self))%nat.
Proof.
  intros H0. apply score_pass_inv in H0. destruct H0 as (ext & tr & Hext & _).
  destruct (Nat.le_gt_cases 3 (length (__series__ self))) as [|Hlt]; [assumption|].
  rewrite extend_series_short in Hext; [discriminate|lia|].
  unfold __values__. now rewrite length_map.
Qed.

(** What the margin pass puts at position [i] of a report. *)
Lemma margin_pass_nth (self : SpectralResidual) (f0 f : Frame) (i : nat) :
  score_pass self = Ok f0 ->
  margin_pass self f0 = Ok f ->
  (i < length (__series__ self))%nat ->
  exists m,
    Margin f = Some m /\
    length (ExpectedValue m) = length (__series__ self) /\
    length (LowerBoundary m) = length (__series__ self) /\
    length (UpperBoundary m) = length (__series__ self) /\
    length (IsAnomaly f) = length (__series__ self) /\
    let e := nth i (ExpectedValue m) (0, 0)%R in
    let w := calculate_margin
               (nth i (calculate_bounary_unit_entire (__values__ self) (IsAnomaly f0)) 0%R)
               (__sensitivity self) in
    nth i (LowerBoundary m) (0, 0)%R = (real e - w, imag e)%R /\
    nth i (UpperBoundary m) (0, 0)%R = (real e + w, imag e)%R /\
    nth i (IsAnomaly f) false
    = (nth i (IsAnomaly f0) false
       && Cleb (nth i (LowerBoundary m) (0, 0)%R) (of_real (nth i (Value f) 0%R))
       && Cleb (of_real (nth i (Value f) 0%R)) (nth i (UpperBoundary m) (0, 0)%R))%bool.
Proof.
  intros H0 Hm Hi.
  pose proof (score_pass_inv self f0 H0) as (ext & tr & _ & _ & Hshape).
  cbv zeta in Hshape. destruct Hshape as [Hmags Hshape].
  assert (Hv : length (__values__ self) = length (__series__ self))
    by (unfold __values__; apply length_map).
  assert (Hne : __values__ self <> []) by (apply nonempty_length; lia).
  assert (Hfl0 : length (IsAnomaly f0) = length (__series__ self))
    by (rewrite Hshape; cbn [IsAnomaly];
        now rewrite length_map, generate_spectral_score_length).
  assert (Hval0 : Value f0 = __values__ self) by (rewrite Hshape; reflexivity).
  apply margin_pass_inv in Hm. destruct Hm as (expected & He & Hf). cbv zeta in Hf.
  rewrite calculate_expected_value_ok in He by assumption. injection He as <-.
  set (expected := idft _) in *.
  assert (Hle : length expected = length (__series__ self))
    by (unfold expected; rewrite idft_length, band_filtered_spectrum_length,
          deanomaly_entire_length; exact Hv).
  set (units := calculate_bounary_unit_entire (__values__ self) (IsAnomaly f0)) in *.
  assert (Hlu : length units = length (__series__ self))
    by (unfold units, calculate_bounary_unit_entire; rewrite length_map, length_seq; exact Hv).
  set (margins := map (fun u => calculate_margin u (__sensitivity self)) units) in *.
  assert (Hlm : length margins = length (__series__ self))
    by (unfold margins; now rewrite length_map).
  assert (Hw : nth i margins 0%R = calculate_margin (nth i units 0%R) (__sensitivity self)).
  { unfold margins.
    rewrite (nth_indep _ 0%R ((fun u => calculate_margin u (__sensitivity self)) 0%R))
      by (rewrite length_map; lia).
    apply (map_nth (fun u => calculate_margin u (__sensitivity self))). }
  eexists. rewrite Hf. cbn [Margin ExpectedValue LowerBoundary UpperBoundary IsAnomaly Value].
  split; [reflexivity|]. cbn [ExpectedValue LowerBoundary UpperBoundary].
  split; [exact Hle|]. split; [rewrite zip_with_length; lia|].
  split; [rewrite zip_with_length; lia|].
  split; [rewrite !zip_with_length, length_map, Hval0; lia|].
  cbv zeta.
  assert (Hlo : nth i (Py.zip_with (fun e m => (real e - m, imag e)%R) expected margins)
                    (0, 0)%R
                = (real (nth i expected (0, 0)) - calculate_margin (nth i units 0)
                                                    (__sensitivity self),
                   imag (nth i expected (0, 0)))%R).
  { rewrite (zip_with_nth _ expected margins i (0, 0)%R 0%R) by lia.
    now rewrite Hw. }
  assert (Hup : nth i (Py.zip_with (fun e m => (real e + m, imag e)%R) expected margins)
                    (0, 0)%R
                = (real (nth i expected (0, 0)) + calculate_margin (nth i units 0)
                                                    (__sensitivity self),
                   imag (nth i expected (0, 0)))%R).
  { rewrite (zip_with_nth _ expected margins i (0, 0)%R 0%R) by lia.
    now rewrite Hw. }
  split; [exact Hlo|]. split; [exact Hup|].
  assert (Hlv : length (map of_real (Value f0)) = length (__series__ self))
    by (rewrite length_map, Hval0; exact Hv).
  rewrite (zip_with_nth andb _ _ i false false false)
    by (rewrite ?zip_with_length; lia).
  rewrite (zip_with_nth andb _ _ i false false false)
    by (rewrite ?zip_with_length; lia).
  rewrite (zip_with_nth Cleb _ _ i (0, 0)%R (of_real 0) false)
    by (rewrite ?zip_with_length; lia).
  rewrite (zip_with_nth Cleb _ _ i (of_real 0) (0, 0)%R false)
    by (rewrite ?zip_with_length; lia).
  rewrite (map_nth of_real). reflexivity.
Qed.

(** X5: in [anomaly_and_margin] mode a record of the report is flagged
    exactly when its score of the score-only pass reaches the threshold and
    the two comparisons of the code hold. The boundaries are complex
    numbers, which numpy compares by real part first and by imaginary part
    on a tie, the value having imaginary part 0. So a record whose score
    reaches the threshold is flagged when its value lies strictly between
    the real parts of its boundaries, and only when it lies between them. *)
Theorem margin_flag_exact (self : SpectralResidual) (f : Frame) :
  __detect_mode self = anomaly_and_margin ->
  __detect self = Ok f ->
  exists f0 m,
    score_pass self = Ok f0 /\ Margin f = Some m /\
    length (IsAnomaly f) = length (__series__ self) /\
    forall i, (i < length (__series__ self))%nat ->
      let lower := nth i (LowerBoundary m) (0, 0)%R in
      let upper := nth i (UpperBoundary m) (0, 0)%R in
      let v := nth i (Value f) 0%R in
      let reached := (__threshold__ self <= nth i (AnomalyScore f0) 0)%R in
      (nth i (IsAnomaly f) false = true <->
       reached /\
       (real lower < v \/ (real lower = v /\ imag lower <= 0))%R /\
       (v < real upper \/ (v = real upper /\ 0 <= imag upper))%R) /\
      (reached -> (real lower < v < real upper)%R -> nth i (IsAnomaly f) false = true) /\
      (nth i (IsAnomaly f) false = true -> (real lower <= v <= real upper)%R).
Proof.
  intros Hmode Hf.
  apply __detect_inv in Hf. destruct Hf as (f0 & H0 & [[Hm _] | [_ Hm]]); [congruence|].
  pose proof (score_pass_long self f0 H0) as H3.
  destruct (margin_pass_nth self f0 f 0 H0 Hm ltac:(lia)) as (m & Hmg & _ & _ & _ & Hlf & _).
  exists f0, m. split; [exact H0|]. split; [exact Hmg|]. split; [exact Hlf|].
  intros i Hi lower upper v reached.
  destruct (margin_pass_nth self f0 f i H0 Hm Hi) as (m' & Hmg' & _ & _ & _ & _ & Hrec).
  assert (m' = m) by congruence. subst m'. cbv zeta in Hrec.
  destruct Hrec as (_ & _ & Hflag). fold lower upper v in Hflag.
  pose proof (score_pass_inv self f0 H0) as (ext & tr & _ & _ & Hshape).
  cbv zeta in Hshape. destruct Hshape as [Hmags Hshape].
  assert (Hpre : nth i (IsAnomaly f0) false = true <-> reached).
  { unfold reached. rewrite Hshape. cbn [IsAnomaly AnomalyScore].
    rewrite (nth_indep _ false ((fun s => Rleb (__threshold__ self) s) 0%R))
      by (rewrite length_map, generate_spectral_score_length; lia).
    rewrite (map_nth (fun s => Rleb (__threshold__ self) s)). apply Rleb_true. }
  assert (Hexact : nth i (IsAnomaly f) false = true <->
                   reached /\
                   (real lower < v \/ (real lower = v /\ imag lower <= 0))%R /\
                   (v < real upper \/ (v = real upper /\ 0 <= imag upper))%R).
  { rewrite Hflag, !andb_true_iff, !Cleb_spec, Hpre. cbn [of_real real imag fst snd].
    split.
    - intros [[H1 H2] H4]. auto.
    - intros [H1 [H2 H4]]. auto. }
  split; [exact Hexact|]. split.
  - intros Hr [Hlo Hup]. apply Hexact. split; [exact Hr|]. split; left; assumption.
  - intros Hfl. apply Hexact in Hfl. destruct Hfl as (_ & Hlo & Hup).
    split; [destruct Hlo as [Hlo|[Hlo _]]; lra | destruct Hup as [Hup|[Hup _]]; lra].
Qed.

(** X6: in [anomaly_and_margin] mode the three margin columns have one entry
    for every record. Each boundary is the expected value with the margin
    subtracted from, or added to, its real part, the imaginary part being
    kept; so the real part of the expected value is the midpoint of the
    real parts of the boundaries, and when the margin is not negative,
    lower <= expected <= upper, on the real parts and in the order in which
    numpy compares complex numbers. *)
Theorem margin_boundaries (self : SpectralResidual) (f : Frame) :
  __detect_mode self = anomaly_and_margin ->
  __detect self = Ok f ->
  exists f0 m,
    score_pass self = Ok f0 /\ Margin f = Some m /\
    length (ExpectedValue m) = length (__series__ self) /\
    length (LowerBoundary m) = length (__series__ self) /\
    length (UpperBoundary m) = length (__series__ self) /\
    forall i, (i < length (__series__ self))%nat ->
      let e := nth i (ExpectedValue m) (0, 0)%R in
      let lower := nth i (LowerBoundary m) (0, 0)%R in
      let upper := nth i (UpperBoundary m) (0, 0)%R in
      let w := calculate_margin
                 (nth i (calculate_bounary_unit_entire (__values__ self) (IsAnomaly f0)) 0%R)
                 (__sensitivity self) in
      lower = (real e - w, imag e)%R /\ upper = (real e + w, imag e)%R /\
      (real lower + real upper = 2 * real e)%R /\
      ((0 <= w)%R ->
       (real lower <= real e <= real upper)%R /\
       Cleb lower e = true /\ Cleb e upper = true).
Proof.
  intros Hmode Hf.
  apply __detect_inv in Hf. destruct Hf as (f0 & H0 & [[Hm _] | [_ Hm]]); [congruence|].
  pose proof (score_pass_long self f0 H0) as H3.
  destruct (margin_pass_nth self f0 f 0 H0 Hm ltac:(lia))
    as (m & Hmg & Hle & Hll & Hlu & _ & _).
  exists f0, m. repeat (split; [assumption|]).
  intros i Hi.
  destruct (margin_pass_nth self f0 f i H0 Hm Hi) as (m' & Hmg' & _ & _ & _ & _ & Hrec).
  assert (m' = m) by congruence. subst m'. cbv zeta in Hrec |- *.
  destruct Hrec as (Hlo & Hup & _).
  rewrite Hlo, Hup. cbn [real imag fst snd].
  split; [reflexivity|]. split; [reflexivity|].
  split; [lra|]. intros Hw. split; [lra|].
  rewrite !Cleb_spec. cbn [real imag fst snd].
  split.
  - destruct Hw as [Hw|Hw]; [left; lra|right; split; lra].
  - destruct Hw as [Hw|Hw]; [left; lra|right; split; lra].
Qed.

(** ** Every report that [detect] returns *)

(** X7: along any number of calls of [detect] on an instance built by
    [__init__], the configuration is never modified, the stored frame is
    either absent or the frame that [__detect] computes for that
    configuration, and every report returned by a call, computed or cached,
    is that frame: it has one record for each of the [N >= 3] points, with
    the ids [0 .. N-1], the timestamps and the values of the input. *)
Theorem detect_returns_computed_frame (series : list (timestamp * R)) (threshold : R)
      (mag_window score_window : Z) (sensitivity : R) (detect_mode : DetectMode) (n : nat) :
  let self := __init__ series threshold mag_window score_window sensitivity detect_mode in
  let outcomes := fst (detect_calls n self) in
  let self' := snd (detect_calls n self) in
  (self' = self \/ exists f, __detect self = Ok f /\ self' = set_anomaly_frame self f) /\
  (forall f, In (Ok f) (map returned outcomes) ->
     __detect self = Ok f /\ (3 <= length series)%nat /\
     AnomalyId f = seq 0 (length series) /\
     Timestamp f = map fst series /\ Value f = map snd series) /\
  (forall e, In (Raise e) (map returned outcomes) -> __detect self = Raise e).
Proof.
  intros self outcomes self'. unfold outcomes, self'. clear outcomes self'.
  assert (Hshape : forall f, __detect self = Ok f ->
            __detect self = Ok f /\ (3 <= length series)%nat /\
            AnomalyId f = seq 0 (length series) /\
            Timestamp f = map fst series /\ Value f = map snd series).
  { intros f Hf. split; [exact Hf|].
    destruct (__detect_inv self f Hf) as (f0 & H0 & _).
    pose proof (score_pass_long self f0 H0) as H3. split; [exact H3|].
    destruct (__detect_ok series threshold mag_window score_window sensitivity detect_mode H3)
      as (f' & _ & Hf' & _ & _ & _ & Hid & Hts & Hv & _).
    fold self in Hf'. assert (f' = f) by congruence. subst f'. auto. }
  destruct (__detect self) as [f|e] eqn:E.
  - destruct n as [|n]; [simpl; split; [now left|split; intros ? []]|].
    rewrite (detect_calls_computed self f n eq_refl E). cbn [fst snd].
    split; [right; exists f; split; reflexivity|]. split.
    + intros f' [H|H].
      * injection H as <-. now apply Hshape.
      * rewrite map_repeat in H. apply repeat_spec in H. injection H as ->.
        now apply Hshape.
    + intros e' [H|H]; [discriminate|]. rewrite map_repeat in H.
      apply repeat_spec in H. discriminate.
  - rewrite (detect_calls_raised self e n eq_refl E). cbn [fst snd].
    split; [now left|]. split.
    + intros f' H. rewrite map_repeat in H. apply repeat_spec in H. discriminate.
    + intros e' H. rewrite map_repeat in H. apply repeat_spec in H. exact (eq_sym H).
Qed.

(** ** The shape of the band *)

(** X8: the band filter keeps the coefficient of index 0, treats the indices
    [i] and [L - i] alike, and removes the central index [L / 2] of every
    series of 2 or of at least 4 points; it keeps the whole spectrum only for
    series of 0, 1 or 3 points. *)
Theorem band_filter_shape (L : nat) :
  band_keep L 0 = true /\
  (forall i, (i <= L)%nat -> band_keep L (L - i) = band_keep L i) /\
  ((L = 2 \/ 4 <= L)%nat -> band_keep L (L / 2) = false) /\
  ((forall i, (i < L)%nat -> band_keep L i = true) <-> (L = 0 \/ L = 1 \/ L = 3)%nat).
Proof.
  assert (Hmid : (L = 2 \/ 4 <= L)%nat -> band_keep L (L / 2) = false).
  { intros HL. rewrite band_keep_integers. apply not_true_iff_false.
    rewrite orb_true_iff, !Nat.leb_le.
    pose proof (Nat.div_mod_eq L 2) as Hd.
    pose proof (Nat.mod_upper_bound L 2 ltac:(lia)) as Hr.
    lia. }
  split; [|split; [|split]].
  - rewrite band_keep_integers. apply orb_true_iff. left. apply Nat.leb_le. lia.
  - intros i Hi. now apply band_keep_symmetric.
  - exact Hmid.
  - split.
    + intros Hall.
      destruct (Nat.eq_dec L 0) as [|H0]; [now left|].
      destruct (Nat.eq_dec L 1) as [|H1]; [now right; left|].
      destruct (Nat.eq_dec L 3) as [|H3]; [now right; right|].
      exfalso. assert (HL : (L = 2 \/ 4 <= L)%nat) by lia.
      specialize (Hmid HL).
      rewrite Hall in Hmid; [discriminate|].
      apply Nat.div_lt; lia.
    + intros HL i Hi. rewrite band_keep_integers. apply orb_true_iff.
      rewrite !Nat.leb_le. lia.
Qed.

(** ** Extrapolation *)

Lemma sigma_const (n : nat) (c : R) : sigma n (fun _ => c) = (INR n * c)%R.
Proof.
  induction n as [|n IH]; [simpl; lra|].
  change (sigma (S n) (fun _ => c)) with (sigma n (fun _ => c) + c)%R.
  rewrite IH, S_INR. lra.
Qed.

Lemma sigma_scale (n : nat) (k : R) (f : nat -> R) :
  sigma n (fun i => k * f i)%R = (k * sigma n f)%R.
Proof. induction n as [|n IH]; simpl; [lra|]. rewrite IH. lra. Qed.

Lemma progression_length (a d : R) (s n : nat) : length (progression a d s n) = n.
Proof. unfold progression. now rewrite length_map, length_seq. Qed.

Lemma progression_nth (a d : R) (s n i : nat) :
  (i < n)%nat -> nth i (progression a d s n) 0%R = (a + INR (s + i) * d)%R.
Proof.
  intros Hi. unfold progression.
  rewrite (nth_indep _ 0%R ((fun i => (a + INR i * d)%R) 0%nat))
    by (rewrite length_map, length_seq; exact Hi).
  rewrite (map_nth (fun i => (a + INR i * d)%R)), seq_nth by assumption. reflexivity.
Qed.

Lemma progression_constant (a : R) (s n : nat) : progression a 0 s n = repeat a n.
Proof.
  unfold progression.
  rewrite (map_ext _ (fun _ => a)) by (intros; lra).
  now rewrite map_const, length_seq.
Qed.

Lemma predict_next_progression_value (a d : R) (s n : nat) :
  (2 <= n)%nat ->
  predict_next (progression a d s n) = Ok (a + INR (s + n) * d)%R.
Proof.
  intros Hn.
  rewrite predict_next_value by (rewrite progression_length; exact Hn).
  f_equal. unfold predict_next_formula. rewrite progression_length.
  rewrite (sigma_ext (n - 1) _ (fun _ => d)).
  - rewrite sigma_const, progression_nth by lia.
    rewrite minus_INR by lia. rewrite !plus_INR. simpl INR. lra.
  - intros i Hi. rewrite !progression_nth by lia.
    assert (Hlt : (INR i < INR n - 1)%R).
    { apply lt_INR in Hi. rewrite minus_INR in Hi by lia. simpl INR in Hi. exact Hi. }
    rewrite !plus_INR, !minus_INR by lia. simpl INR.
    field. lra.
Qed.

(** X9: [predict_next] continues an arithmetic progression exactly: on the
    [n >= 2] values [a + s d, ..., a + (s + n - 1) d] it returns
    [a + (s + n) d]; in particular it returns [a] on a constant list. *)
Theorem predict_next_progression (a d : R) (s n : nat) :
  (2 <= n)%nat ->
  predict_next (progression a d s n) = Ok (a + INR (s + n) * d)%R /\
  predict_next (repeat a n) = Ok a.
Proof.
  intros Hn. split; [now apply predict_next_progression_value|].
  rewrite <- (progression_constant a 0 n).
  rewrite predict_next_progression_value by assumption. f_equal. lra.
Qed.

(** X10: [predict_next] commutes with a change of unit and origin: scaling
    every value by [k] and shifting it by [c] scales and shifts the
    prediction in the same way. *)
Theorem predict_next_affine (values : list R) (k c p : R) :
  predict_next values = Ok p ->
  predict_next (map (fun v => k * v + c)%R values) = Ok (k * p + c)%R.
Proof.
  intros Hp.
  assert (Hn : (2 <= length values)%nat).
  { destruct (Nat.le_gt_cases 2 (length values)) as [|Hlt]; [assumption|].
    rewrite predict_next_short in Hp by assumption. discriminate. }
  rewrite predict_next_value in Hp by assumption. injection Hp as <-.
  rewrite predict_next_value by (rewrite length_map; exact Hn).
  f_equal. unfold predict_next_formula. rewrite length_map.
  assert (Hnth : forall i, (i < length values)%nat ->
            nth i (map (fun v => k * v + c)%R values) 0%R = (k * nth i values 0 + c)%R).
  { intros i Hi.
    rewrite (nth_indep _ 0%R ((fun v => k * v + c)%R 0%R)) by (rewrite length_map; exact Hi).
    apply (map_nth (fun v => k * v + c)%R). }
  rewrite (sigma_ext (length values - 1) _
             (fun i => k * ((nth (length values - 1) values 0 - nth i values 0)
                            / INR (length values - 1 - i)))%R).
  - rewrite sigma_scale, Hnth by lia. lra.
  - intros i Hi. rewrite !Hnth by lia. unfold Rdiv. ring.
Qed.

(** ** Extending a series *)

Lemma firstn_seq_min (k s m : nat) : firstn k (seq s m) = seq s (Nat.min k m).
Proof.
  revert k s. induction m as [|m IH]; intros [|k] s; simpl; try reflexivity.
  now rewrite IH.
Qed.

Lemma slice_window_progression (a d : R) (n : nat) (look_ahead : Z) :
  (1 <= look_ahead)%Z -> (1 <= n)%nat ->
  Py.slice (progression a d 0 n) (Some (- look_ahead - 2)%Z) (Some (-1)%Z)
  = progression a d (n - Z.to_nat (look_ahead + 2))
                (n - 1 - (n - Z.to_nat (look_ahead + 2))).
Proof.
  intros Hla Hn. unfold Py.slice, Py.adjust_index. rewrite progression_length.
  destruct (Z.ltb_spec (- look_ahead - 2) 0); [|lia].
  destruct (Z.ltb_spec (-1) 0); [|lia].
  unfold progression. rewrite skipn_map, firstn_map, skipn_seq, firstn_seq_min.
  f_equal. f_equal; lia.
Qed.

Lemma extend_series_progression_value (a d : R) (n : nat) (extend_num look_ahead : Z) :
  (3 <= n)%nat -> (1 <= look_ahead)%Z ->
  extend_series (progression a d 0 n) extend_num look_ahead
  = Ok (progression a d 0 n ++ repeat (a + INR (n - 1) * d)%R (Z.to_nat extend_num)).
Proof.
  intros Hn Hla. rewrite extend_series_value by assumption.
  rewrite slice_window_progression by (assumption || lia).
  rewrite predict_next_progression_value by lia. cbn [bind].
  replace (n - Z.to_nat (look_ahead + 2) + (n - 1 - (n - Z.to_nat (look_ahead + 2))))%nat
    with (n - 1)%nat by lia.
  reflexivity.
Qed.

Lemma extend_series_repeat (a : R) (n : nat) (extend_num look_ahead : Z) :
  (3 <= n)%nat -> (1 <= look_ahead)%Z ->
  extend_series (repeat a n) extend_num look_ahead
  = Ok (repeat a n ++ repeat a (Z.to_nat extend_num)).
Proof.
  intros Hn Hla.
  rewrite <- (progression_constant a 0 n), extend_series_progression_value by assumption.
  do 3 f_equal. lra.
Qed.

(** X11: on an arithmetic progression of at least three values
    [extend_series] appends copies of the last value: the window that it
    extrapolates leaves the last value out, and the extrapolation of the
    window gives that value back. A constant list is extended by its
    constant. *)
Theorem extend_series_progression (a d : R) (n : nat) (extend_num look_ahead : Z) :
  (3 <= n)%nat -> (1 <= look_ahead)%Z ->
  extend_series (progression a d 0 n) extend_num look_ahead
  = Ok (progression a d 0 n ++ repeat (a + INR (n - 1) * d)%R (Z.to_nat extend_num)) /\
  extend_series (repeat a n) extend_num look_ahead
  = Ok (repeat a n ++ repeat a (Z.to_nat extend_num)).
Proof.
  intros Hn Hla. split.
  - now apply extend_series_progression_value.
  - now apply extend_series_repeat.
Qed.

(** X12: [extend_series] only reads the last [look_ahead + 2] values: values
    put before them are passed through and change nothing else. *)
Theorem extend_series_local (prefix tail : list R) (extend_num look_ahead : Z) :
  (look_ahead + 2 <= Z.of_nat (length tail))%Z ->
  extend_series (prefix ++ tail) extend_num look_ahead
  = (extended <- extend_series tail extend_num look_ahead;; Ok (prefix ++ extended)).
Proof.
  intros Hlen. unfold extend_series.
  destruct (Z.ltb_spec look_ahead 1); [reflexivity|].
  replace (- look_ahead - 2)%Z with (- (look_ahead + 2))%Z by lia.
  rewrite !slice_window by lia. rewrite length_app.
  replace (skipn (length prefix + length tail - Z.to_nat (look_ahead + 2)) (prefix ++ tail))
    with (skipn (length tail - Z.to_nat (look_ahead + 2)) tail).
  - destruct (predict_next _) as [next|e]; cbn [bind]; [|reflexivity].
    now rewrite app_assoc.
  - rewrite skipn_app, (skipn_all2 prefix) by lia. cbn [app]. f_equal. lia.
Qed.

(** ** Roots of unity *)

Lemma sigma_telescope (n : nat) (F : nat -> R) :
  sigma n (fun i => F (S i) - F i)%R = (F n - F 0%nat)%R.
Proof. induction n as [|n IH]; simpl; [lra|]. rewrite IH. lra. Qed.

(** The [L]-th roots of unity, taken to a power [k] that [L] does not
    divide, sum to zero. *)
Lemma root_of_unity_sum (L k : nat) :
  (0 < k < L)%nat ->
  sigma L (fun n => cos (2 * PI * INR k * INR n / INR L)) = 0%R /\
  sigma L (fun n => sin (2 * PI * INR k * INR n / INR L)) = 0%R.
Proof.
  intros Hk.
  assert (HL : (0 < INR L)%R) by (apply lt_0_INR; lia).
  assert (Hk0 : (0 < INR k)%R) by (apply lt_0_INR; lia).
  assert (HkL : (INR k < INR L)%R) by (apply lt_INR; lia).
  set (h := (PI * INR k / INR L)%R).
  assert (Hh0 : (0 < h)%R).
  { unfold h, Rdiv. apply Rmult_lt_0_compat; [apply Rmult_lt_0_compat|];
      [apply PI_RGT_0 | assumption | now apply Rinv_0_lt_compat]. }
  assert (HhPI : (h < PI)%R).
  { unfold h. apply (Rmult_lt_reg_r (INR L)); [assumption|].
    unfold Rdiv. rewrite Rmult_assoc, Rmult_assoc, Rinv_l, Rmult_1_r by lra.
    apply Rmult_lt_compat_l; [apply PI_RGT_0|assumption]. }
  assert (Hsin : (0 < sin h)%R) by (apply sin_gt_0; assumption).
  assert (Hangle : forall n, (2 * PI * INR k * INR n / INR L = 2 * h * INR n)%R).
  { intros n. unfold h. field. lra. }
  assert (HhL : (2 * h * INR L = 2 * INR k * PI)%R) by (unfold h; field; lra).
  split.
  - apply (Rmult_eq_reg_l (2 * sin h)); [|lra]. rewrite Rmult_0_r, <- sigma_scale.
    rewrite (sigma_ext L _ (fun n => sin (2 * h * INR (S n) - h) - sin (2 * h * INR n - h))%R).
    + rewrite (sigma_telescope L (fun n => sin (2 * h * INR n - h))).
      rewrite HhL, sin_reflect. simpl INR. rewrite Rmult_0_r, Rminus_0_l, sin_neg. lra.
    + intros n _. rewrite Hangle, S_INR.
      replace (2 * h * (INR n + 1) - h)%R with (2 * h * INR n + h)%R by ring.
      rewrite sin_plus, sin_minus. ring.
  - apply (Rmult_eq_reg_l (2 * sin h)); [|lra]. rewrite Rmult_0_r, <- sigma_scale.
    rewrite (sigma_ext L _ (fun n => (- cos (2 * h * INR (S n) - h))
                                     - (- cos (2 * h * INR n - h)))%R).
    + rewrite (sigma_telescope L (fun n => (- cos (2 * h * INR n - h))%R)).
      rewrite HhL, cos_reflect. simpl INR. rewrite Rmult_0_r, Rminus_0_l, cos_neg. lra.
    + intros n _. rewrite Hangle, S_INR.
      replace (2 * h * (INR n + 1) - h)%R with (2 * h * INR n + h)%R by ring.
      rewrite cos_plus, cos_minus. ring.
Qed.

(** ** Constant series *)

Lemma repeat_nth {A : Type} (x d : A) (n i : nat) :
  (i < n)%nat -> nth i (repeat x n) d = x.
Proof.
  revert i. induction n as [|n IH]; intros [|i] Hi; simpl; try lia; auto.
  apply IH. lia.
Qed.

Lemma map_seq_constant {A : Type} (f : nat -> A) (v : A) (n : nat) :
  (forall i, (i < n)%nat -> f i = v) -> map f (seq 0 n) = repeat v n.
Proof.
  intros H. rewrite (map_ext_in f (fun _ => v)).
  - now rewrite map_const, length_seq.
  - intros i Hi. apply in_seq in Hi. apply H. lia.
Qed.

Lemma firstn_repeat {A : Type} (x : A) (k n : nat) :
  (k <= n)%nat -> firstn k (repeat x n) = repeat x k.
Proof.
  revert n. induction k as [|k IH]; intros [|n] Hk; simpl; try lia; auto.
  f_equal. apply IH. lia.
Qed.

Lemma magnitude_zero : magnitude (0, 0)%R = 0%R.
Proof.
  unfold magnitude. cbn [real imag fst snd].
  replace (0 ^ 2 + 0 ^ 2)%R with 0%R by ring. apply sqrt_0.
Qed.

(** The transform of a constant series vanishes away from frequency 0. *)
Lemma dft_constant (c : R) (L k : nat) :
  (0 < k < L)%nat -> dft_at (-1) (map of_real (repeat c L)) k = (0, 0)%R.
Proof.
  intros Hk. rewrite dft_at_sigma, length_map, repeat_length.
  destruct (root_of_unity_sum L k Hk) as [Hcos Hsin].
  f_equal.
  - rewrite (sigma_ext L _ (fun n => c * cos (2 * PI * INR k * INR n / INR L))%R).
    + rewrite sigma_scale, Hcos. ring.
    + intros n Hn. rewrite of_real_nth, repeat_nth by assumption. cbn [real imag fst snd].
      replace (-1 * (2 * PI * INR k * INR n / INR L))%R
        with (- (2 * PI * INR k * INR n / INR L))%R by ring.
      rewrite cos_neg. ring.
  - rewrite (sigma_ext L _ (fun n => (- c) * sin (2 * PI * INR k * INR n / INR L))%R).
    + rewrite sigma_scale, Hsin. ring.
    + intros n Hn. rewrite of_real_nth, repeat_nth by assumption. cbn [real imag fst snd].
      replace (-1 * (2 * PI * INR k * INR n / INR L))%R
        with (- (2 * PI * INR k * INR n / INR L))%R by ring.
      rewrite sin_neg. ring.
Qed.

(** The inverse transform of a spectrum that vanishes away from frequency 0
    is constant. *)
Lemma idft_delta (ys : list complex) :
  (forall k, (1 <= k < length ys)%nat -> nth k ys (0, 0)%R = (0, 0)%R) ->
  idft ys = repeat (Cscale (/ INR (length ys)) (nth 0 ys (0, 0)%R)) (length ys).
Proof.
  intros Hzero. unfold idft. apply map_seq_constant. intros m Hm. f_equal.
  rewrite dft_at_sigma.
  destruct (length ys) as [|L] eqn:E; [lia|].
  rewrite !sigma_shift.
  rewrite !(sigma_zero L).
  - simpl INR. rewrite Rmult_0_r. unfold Rdiv. rewrite Rmult_0_l, Rmult_0_r, cos_0, sin_0.
    destruct (nth 0 ys (0, 0)%R) as [re im]. cbn [real imag fst snd]. f_equal; ring.
  - intros k Hk. rewrite Hzero by lia. cbn [real imag fst snd]. ring.
  - intros k Hk. rewrite Hzero by lia. cbn [real imag fst snd]. ring.
Qed.

Lemma transform_repeat (self : SpectralResidual) (c : R) (n : nat) :
  (0 <= EPS)%R -> (1 <= n)%nat ->
  exists mu, (0 <= mu)%R /\
             spectral_residual_transform self (repeat c n) = Ok (repeat mu n).
Proof.
  intros Heps Hn. unfold spectral_residual_transform.
  rewrite fft_ok by (apply nonempty_length; rewrite length_map, repeat_length; lia).
  cbn [bind].
  set (trans := dft (map of_real (repeat c n))).
  assert (Hlt : length trans = n) by (unfold trans; rewrite dft_length, length_map; apply repeat_length).
  assert (Htrans : forall k, (1 <= k < n)%nat -> nth k trans (0, 0)%R = (0, 0)%R).
  { intros k Hk. unfold trans.
    rewrite dft_nth by (rewrite length_map, repeat_length; lia).
    apply dft_constant. lia. }
  set (mask := map (fun m => Rleb m EPS) (map magnitude trans)).
  assert (Hmask : forall k, (1 <= k < n)%nat -> nth k mask false = true).
  { intros k Hk. unfold mask.
    rewrite (nth_indep _ false ((fun m => Rleb m EPS) 0%R)) by (rewrite !length_map; lia).
    rewrite (map_nth (fun m => Rleb m EPS)).
    rewrite <- magnitude_zero at 1. rewrite (map_nth magnitude), Htrans by assumption.
    rewrite magnitude_zero. now apply Rleb_true. }
  match goal with |- context [ifft (combine ?re ?im)] =>
    set (new_real := re); set (new_imag := im) end.
  assert (Hlr : length new_real = n) by (unfold new_real; shape).
  assert (Hli : length new_imag = n) by (unfold new_imag; shape).
  rewrite ifft_ok by (apply nonempty_length; rewrite length_combine; lia). cbn [bind].
  rewrite idft_delta.
  - rewrite map_repeat, length_combine, Hlr, Hli, Nat.min_id.
    eexists. split; [apply magnitude_nonneg|reflexivity].
  - intros k Hk. rewrite length_combine, Hlr, Hli, Nat.min_id in Hk.
    rewrite combine_nth by lia.
    unfold new_real, new_imag. rewrite !put_where_nth by (shape).
    fold mask. now rewrite Hmask.
Qed.


Lemma list_eq_repeat {A : Type} (l : list A) (v d : A) (n : nat) :
  length l = n -> (forall i, (i < n)%nat -> nth i l d = v) -> l = repeat v n.
Proof.
  intros Hl H. apply (nth_ext _ _ d d); [now rewrite repeat_length|].
  intros i Hi. rewrite H, repeat_nth by lia. reflexivity.
Qed.

(** The scores of equal magnitudes, when the moving average of a constant
    array is that constant. *)
Lemma generate_spectral_score_repeat (self : SpectralResidual) (mu : R) (n : nat) :
  (forall i, (i < n)%nat -> average_at (repeat mu n) (__score_window self) i = mu) ->
  generate_spectral_score self (repeat mu n)
  = repeat (clip (Rabs (mu - Rmax mu EPS) / Rmax mu EPS / 10) 0 1) n.
Proof.
  intros Have. apply (list_eq_repeat _ _ 0%R).
  - now rewrite generate_spectral_score_length, repeat_length.
  - intros i Hi. rewrite generate_spectral_score_nth by (rewrite repeat_length; exact Hi).
    unfold average_filter. rewrite repeat_length, map_seq_nth by assumption.
    rewrite repeat_nth, Have by assumption. reflexivity.
Qed.

Lemma constant_score_small (mu : R) :
  (0 < EPS)%R -> (0 <= mu)%R ->
  (0 <= clip (Rabs (mu - Rmax mu EPS) / Rmax mu EPS / 10) 0 1 <= 1 / 10)%R /\
  ((EPS <= mu)%R -> clip (Rabs (mu - Rmax mu EPS) / Rmax mu EPS / 10) 0 1 = 0%R).
Proof.
  intros Heps Hmu. set (b := Rmax mu EPS).
  assert (Hb : (0 < b)%R) by (unfold b; apply Rlt_le_trans with EPS; [assumption|apply Rmax_r]).
  assert (Hbm : (mu <= b)%R) by apply Rmax_l.
  assert (Habs : Rabs (mu - b) = (b - mu)%R) by (rewrite Rabs_left1; lra).
  assert (Hx : (0 <= Rabs (mu - b) / b / 10 <= 1 / 10)%R).
  { rewrite Habs. split.
    - apply Rmult_le_pos; [|lra]. apply Rmult_le_pos; [lra|].
      left. now apply Rinv_0_lt_compat.
    - apply (Rmult_le_reg_r (10 * b)); [lra|]. field_simplify; lra. }
  split.
  - pose proof (clip_unit_interval (Rabs (mu - b) / b / 10)) as [H0 _].
    split; [exact H0|]. unfold clip. rewrite Rmax_left by lra.
    rewrite Rmin_left by lra. lra.
  - intros Hle. apply clip_zero. unfold b. rewrite Rmax_left by assumption.
    rewrite Rminus_diag, Rabs_R0. unfold Rdiv. rewrite !Rmult_0_l. lra.
Qed.


(** ** The total of the expected values *)

Lemma sigma_plus (n : nat) (f g : nat -> R) :
  sigma n (fun i => f i + g i)%R = (sigma n f + sigma n g)%R.
Proof. induction n as [|n IH]; simpl; [lra|]. rewrite IH. lra. Qed.

Lemma sigma_swap (n m : nat) (f : nat -> nat -> R) :
  sigma n (fun i => sigma m (fun j => f i j)) = sigma m (fun j => sigma n (fun i => f i j)).
Proof.
  induction n as [|n IH]; simpl.
  - symmetry. apply sigma_zero. reflexivity.
  - rewrite IH, <- sigma_plus. reflexivity.
Qed.

Lemma list_as_map_nth (l : list R) :
  l = map (fun i => nth i l 0%R) (seq 0 (length l)).
Proof.
  apply (nth_ext _ _ 0%R 0%R); [now rewrite length_map, length_seq|].
  intros i Hi. now rewrite map_seq_nth.
Qed.

Lemma sum_sigma (l : list R) : Py.sum l = sigma (length l) (fun i => nth i l 0%R).
Proof. rewrite (list_as_map_nth l) at 1. apply sum_map_seq. Qed.

(** The values of an inverse transform add up to the coefficient of
    frequency 0. *)
Lemma idft_total (ys : list complex) :
  ys <> [] ->
  sigma (length ys) (fun m => real (nth m (idft ys) (0, 0)%R))
  = real (nth 0 ys (0, 0)%R).
Proof.
  intros Hne.
  assert (HL : (0 < length ys)%nat) by (destruct ys; simpl; [congruence|lia]).
  set (L := length ys) in *.
  assert (HLR : (INR L <> 0)%R) by (apply not_0_INR; lia).
  rewrite (sigma_ext L _
             (fun m => sigma L (fun k =>
                / INR L * (real (nth k ys (0, 0)) * cos (2 * PI * INR k * INR m / INR L)
                           - imag (nth k ys (0, 0)) * sin (2 * PI * INR k * INR m / INR L)))%R)).
  2:{ intros m Hm. unfold idft. fold L. rewrite map_seq_nth by assumption.
      rewrite dft_at_sigma. fold L. cbn [real Cscale fst]. rewrite <- sigma_scale.
      apply sigma_ext. intros k Hk.
      replace (1 * (2 * PI * INR m * INR k / INR L))%R
        with (2 * PI * INR k * INR m / INR L)%R by (field; assumption).
      reflexivity. }
  rewrite sigma_swap.
  rewrite (sigma_ext L _
             (fun k => / INR L * (real (nth k ys (0, 0))
                                  * sigma L (fun m => cos (2 * PI * INR k * INR m / INR L))
                                  - imag (nth k ys (0, 0))
                                    * sigma L (fun m => sin (2 * PI * INR k * INR m / INR L))))%R).
  2:{ intros k Hk. rewrite sigma_scale. f_equal.
      rewrite <- !sigma_scale. unfold Rminus. rewrite <- sigma_opp, <- sigma_plus.
      reflexivity. }
  destruct L as [|L'] eqn:E; [lia|].
  rewrite sigma_shift. rewrite (sigma_zero L').
  - rewrite (sigma_ext (S L') (fun m => cos (2 * PI * INR 0 * INR m / INR (S L')))
               (fun _ => 1%R)).
    2:{ intros m _. simpl (INR 0). unfold Rdiv. rewrite Rmult_0_r, !Rmult_0_l. apply cos_0. }
    rewrite (sigma_zero (S L') (fun m => sin (2 * PI * INR 0 * INR m / INR (S L')))).
    2:{ intros m _. simpl (INR 0). unfold Rdiv. rewrite Rmult_0_r, !Rmult_0_l. apply sin_0. }
    rewrite sigma_const. field. assumption.
  - intros k Hk.
    destruct (root_of_unity_sum (S L') (S k) ltac:(lia)) as [Hcos Hsin].
    rewrite Hcos, Hsin. ring.
Qed.

Lemma dft_zero_frequency_real (x : list R) :
  real (dft_at (-1) (map of_real x) 0) = Py.sum x.
Proof.
  rewrite dft_at_sigma, length_map, sum_sigma. cbn [real fst].
  apply sigma_ext. intros n Hn. rewrite of_real_nth. cbn [real imag fst snd].
  replace (-1 * (2 * PI * INR 0 * INR n / INR (length x)))%R with 0%R
    by (simpl (INR 0); unfold Rdiv; ring).
  rewrite cos_0, sin_0. ring.
Qed.

(** X15: the band filter keeps the coefficient of frequency 0, so the
    expected values that [calculate_expected_value] returns add up to the
    total of the cleaned series: the reconstruction keeps its mean. *)
Theorem expected_value_keeps_total (self : SpectralResidual) (anomaly_index : list nat) :
  __values__ self <> [] ->
  exists exps,
    calculate_expected_value self anomaly_index = Ok exps /\
    Py.sum (map real exps) = Py.sum (deanomaly_entire (__values__ self) anomaly_index).
Proof.
  intros Hne. rewrite calculate_expected_value_ok by assumption.
  eexists. split; [reflexivity|].
  set (clean := deanomaly_entire (__values__ self) anomaly_index).
  assert (Hlc : (0 < length clean)%nat).
  { unfold clean. rewrite deanomaly_entire_length.
    destruct (__values__ self); simpl; [congruence|lia]. }
  assert (Hls : length (band_filtered_spectrum clean) = length clean)
    by apply band_filtered_spectrum_length.
  rewrite sum_sigma, length_map, idft_length, Hls.
  rewrite (sigma_ext (length clean) _
             (fun m => real (nth m (idft (band_filtered_spectrum clean)) (0, 0)%R))).
  2:{ intros m Hm. exact (map_nth real _ (0, 0)%R m). }
  rewrite <- Hls at 1. rewrite idft_total by (apply nonempty_length; lia).
  rewrite band_filtered_spectrum_nth by assumption.
  assert (Hkeep : band_keep (length clean) 0 = true).
  { rewrite band_keep_integers. apply orb_true_iff. left. apply Nat.leb_le. lia. }
  rewrite Hkeep, dft_nth by (rewrite length_map; exact Hlc).
  apply dft_zero_frequency_real.
Qed.

(** ** What the report does not depend on *)

(** X16: two detectors that differ in the detect mode only produce reports
    with the same ids, timestamps, values and magnitudes; the report of
    [anomaly_only] mode has no margin columns and holds the scores of the
    score-only pass, and every record flagged in [anomaly_and_margin] mode
    is flagged in [anomaly_only] mode. *)
Theorem detect_mode_comparison (series : list (timestamp * R)) (threshold : R)
      (mag_window score_window : Z) (sensitivity : R) (f_only f_margin : Frame) :
  __detect (__init__ series threshold mag_window score_window sensitivity anomaly_only)
  = Ok f_only ->
  __detect (__init__ series threshold mag_window score_window sensitivity anomaly_and_margin)
  = Ok f_margin ->
  AnomalyId f_margin = AnomalyId f_only /\ Timestamp f_margin = Timestamp f_only /\
  Value f_margin = Value f_only /\ Mag f_margin = Mag f_only /\
  Margin f_only = None /\ Margin f_margin <> None /\
  incl (where_ (IsAnomaly f_margin)) (where_ (IsAnomaly f_only)).
Proof.
  intros H1 H2. apply __detect_inv in H1, H2.
  destruct H1 as (g1 & H1 & [[_ ->] | [Hm _]]); [|discriminate Hm].
  destruct H2 as (g2 & H2 & [[Hm _] | [_ H2m]]); [discriminate Hm|].
  change (score_pass
            (__init__ series threshold mag_window score_window sensitivity anomaly_only)
          = Ok g2) in H2.
  assert (g2 = g1) by congruence. subst g2.
  pose proof (margin_pass_inv _ _ _ H2m) as (expected & _ & Hshape). cbv zeta in Hshape.
  assert (Hmg : exists m, Margin f_margin = Some m) by (rewrite Hshape; eexists; reflexivity).
  destruct Hmg as [m Hmg].
  assert (Hcols : AnomalyId f_margin = AnomalyId g1 /\ Timestamp f_margin = Timestamp g1 /\
                  Value f_margin = Value g1 /\ Mag f_margin = Mag g1)
    by (rewrite Hshape; auto).
  destruct Hcols as (Hid & Hts & Hv & Hmag).
  apply score_pass_inv in H1. destruct H1 as (e1 & tr1 & _ & _ & H1). cbv zeta in H1.
  destruct H1 as [_ Hg1].
  repeat (split; [assumption|]).
  split; [rewrite Hg1; reflexivity|]. split; [congruence|].
  intros i Hi. apply where_spec in Hi. apply where_spec.
  now destruct (margin_pass_flags _ g1 f_margin m i H2m Hmg Hi).
Qed.

(** X17: timestamps are only copied: two series with the same values and
    any timestamps give reports that agree in every column but
    [Timestamp], which holds the timestamps of the input. *)
Theorem timestamps_are_copied (series1 series2 : list (timestamp * R)) (threshold : R)
      (mag_window score_window : Z) (sensitivity : R) (detect_mode : DetectMode)
      (f1 : Frame) :
  map snd series1 = map snd series2 ->
  __detect (__init__ series1 threshold mag_window score_window sensitivity detect_mode)
  = Ok f1 ->
  Timestamp f1 = map fst series1 /\
  __detect (__init__ series2 threshold mag_window score_window sensitivity detect_mode)
  = Ok {| AnomalyId := AnomalyId f1;
          Timestamp := map fst series2;
          Value := Value f1;
          Mag := Mag f1;
          AnomalyScore := AnomalyScore f1;
          IsAnomaly := IsAnomaly f1;
          Margin := Margin f1 |}.
Proof.
  intros Hvalues H1.
  assert (Hlen : length series1 = length series2).
  { apply (f_equal (@length R)) in Hvalues. now rewrite !length_map in Hvalues. }
  set (self1 := __init__ series1 threshold mag_window score_window sensitivity detect_mode)
    in *.
  set (self2 := __init__ series2 threshold mag_window score_window sensitivity detect_mode).
  assert (Hpass : forall g1, score_pass self1 = Ok g1 ->
            Timestamp g1 = map fst series1 /\
            score_pass self2
            = Ok {| AnomalyId := AnomalyId g1; Timestamp := map fst series2;
                    Value := Value g1; Mag := Mag g1; AnomalyScore := AnomalyScore g1;
                    IsAnomaly := IsAnomaly g1; Margin := Margin g1 |}).
  { intros g1 Hg1. pose proof (score_pass_long self1 g1 Hg1) as H3.
    destruct (score_pass_ok self1 H3) as (tr1 & Htr1 & _ & Hp1).
    destruct (score_pass_ok self2) as (tr2 & Htr2 & _ & Hp2).
    { change (__series__ self2) with series2. change (__series__ self1) with series1 in H3.
      lia. }
    cbv zeta in Htr1, Htr2, Hp1, Hp2.
    change (__values__ self2) with (map snd series2) in Htr2.
    change (__values__ self1) with (map snd series1) in Htr1.
    rewrite <- Hvalues in Htr2.
    change (spectral_residual_transform self2) with (spectral_residual_transform self1)
      in Htr2.
    assert (tr2 = tr1) by congruence. subst tr2.
    rewrite Hp1 in Hg1. injection Hg1 as <-.
    cbn [AnomalyId Timestamp Value Mag AnomalyScore IsAnomaly Margin].
    split; [reflexivity|]. rewrite Hp2.
    change (__series__ self2) with series2. change (__series__ self1) with series1.
    change (generate_spectral_score self2) with (generate_spectral_score self1).
    change (__threshold__ self2) with (__threshold__ self1).
    rewrite <- Hlen, <- Hvalues. reflexivity. }
  apply __detect_inv in H1. destruct H1 as (g1 & Hg1 & Hmode).
  destruct (Hpass g1 Hg1) as [Hts Hp2].
  unfold __detect. rewrite Hp2. cbn [bind].
  change (__detect_mode self2) with (__detect_mode self1).
  destruct Hmode as [[Hmode ->] | [Hmode Hm]].
  - rewrite Hmode. cbn [DetectMode_eqb]. split; [exact Hts|reflexivity].
  - rewrite Hmode. cbn [DetectMode_eqb].
    pose proof (margin_pass_inv _ _ _ Hm) as (expected & He & Hshape). cbv zeta in Hshape.
    split; [rewrite Hshape; exact Hts|].
    unfold margin_pass. cbn [AnomalyId IsAnomaly Value Timestamp Mag].
    assert (Hcev : forall idx, calculate_expected_value self2 idx
                               = calculate_expected_value self1 idx).
    { intros idx. unfold calculate_expected_value.
      change (__values__ self2) with (map snd series2).
      rewrite <- Hvalues. reflexivity. }
    rewrite Hcev, He. cbn [bind].
    change (__values__ self2) with (map snd series2).
    rewrite <- Hvalues. change (map snd series1) with (__values__ self1).
    change (__sensitivity self2) with (__sensitivity self1).
    rewrite Hshape. reflexivity.
Qed.

End Detector.

(** ** The detector on concrete series *)

Arguments Raised {timestamp} e.

(** The detector with the collaborators of [Sample]. *)
Abbreviation sample_detector series detect_mode :=
  (@__init__ Z series (3 / 10)%R 3 3 99%R detect_mode).

Abbreviation sample_detect :=
  (@detect Z Sample.EPS Sample.average_at Sample.deanomaly_at Sample.boundary_unit_at
           Sample.anomaly_score_at Sample.calculate_margin).

Abbreviation sample_compute :=
  (@__detect Z Sample.EPS Sample.average_at Sample.deanomaly_at Sample.boundary_unit_at
             Sample.anomaly_score_at Sample.calculate_margin).

Abbreviation sample_detect_calls :=
  (@detect_calls Z Sample.EPS Sample.average_at Sample.deanomaly_at Sample.boundary_unit_at
                 Sample.anomaly_score_at Sample.calculate_margin).

Lemma sample_series_long : (3 <= length Sample.series)%nat.
Proof. simpl. lia. Qed.

Lemma sample_compute_ok (detect_mode : DetectMode) :
  exists f, sample_compute (sample_detector Sample.series detect_mode) = Ok f.
Proof.
  destruct (__detect_ok Z Sample.EPS Sample.average_at Sample.deanomaly_at
              Sample.boundary_unit_at Sample.anomaly_score_at Sample.calculate_margin
              Sample.series (3 / 10)%R 3 3 99%R detect_mode sample_series_long)
    as (f & _ & Hf & _).
  exists f. exact Hf.
Qed.

Lemma spectral_scores_unit_interval_witness :
  exists f,
    sample_compute (sample_detector Sample.series anomaly_only) = Ok f /\
    Forall (fun s => 0 <= s <= 1)%R (AnomalyScore f).
Proof.
  destruct (sample_compute_ok anomaly_only) as [f Hf].
  exists f. split; [exact Hf|].
  destruct (proj2 (spectral_scores_unit_interval Z Sample.EPS Sample.average_at
                     Sample.deanomaly_at Sample.boundary_unit_at Sample.anomaly_score_at
                     Sample.calculate_margin
                     (sample_detector Sample.series anomaly_only)
                     ltac:(unfold Sample.EPS; lra)) f Hf)
    as (f0 & _ & _ & Honly & _).
  apply Honly. reflexivity.
Defined.

Lemma report_shape_witness :
  exists f,
    fst (sample_detect (sample_detector Sample.series anomaly_only)) = Computed f /\
    AnomalyId f = [0; 1; 2]%nat /\
    combine (Timestamp f) (Value f) = Sample.series.
Proof.
  destruct (proj1 (report_shape Z Sample.EPS Sample.average_at Sample.deanomaly_at
                     Sample.boundary_unit_at Sample.anomaly_score_at Sample.calculate_margin
                     Sample.series (3 / 10)%R 3 3 99%R anomaly_only) sample_series_long)
    as (f & tr & Hd & Hid & Hc & _).
  exists f. rewrite Hd. auto.
Defined.

(** A series of one point is not empty, and [detect] raises on it. *)
Lemma report_shape_counterexample :
  Sample.short_series <> [] /\
  fst (sample_detect (sample_detector Sample.short_series anomaly_only))
  = Raised (ValueError "data should contain at least 2 numbers") /\
  ~ (exists f, returned (fst (sample_detect (sample_detector Sample.short_series anomaly_only)))
               = Ok f /\ length (AnomalyId f) = 1%nat).
Proof.
  assert (H : fst (sample_detect (sample_detector Sample.short_series anomaly_only))
              = Raised (ValueError "data should contain at least 2 numbers"))
    by reflexivity.
  split; [discriminate|]. split; [exact H|].
  intros (f & Hf & _). rewrite H in Hf. discriminate.
Qed.

Lemma detect_memoized_witness :
  exists f,
    sample_detect_calls 3 (sample_detector Sample.series anomaly_only)
    = ([Computed f; Cached f; Cached f],
       set_anomaly_frame (sample_detector Sample.series anomaly_only) f) /\
    (computations (fst (sample_detect_calls 3 (sample_detector Sample.series anomaly_only)))
     <= 1)%nat.
Proof.
  destruct (sample_compute_ok anomaly_only) as [f Hf].
  destruct (detect_memoized Z Sample.EPS Sample.average_at Sample.deanomaly_at
              Sample.boundary_unit_at Sample.anomaly_score_at Sample.calculate_margin
              (sample_detector Sample.series anomaly_only) eq_refl)
    as (Hok & _ & Hcount).
  exists f. split; [exact (Hok f Hf 2%nat) | exact (Hcount 3%nat)].
Defined.

(** On a series of one point the first call stores nothing and the second
    call computes again. *)
Lemma detect_memoized_counterexample :
  sample_detect_calls 2 (sample_detector Sample.short_series anomaly_only)
  = ([Raised (ValueError "data should contain at least 2 numbers");
      Raised (ValueError "data should contain at least 2 numbers")],
     sample_detector Sample.short_series anomaly_only) /\
  ~ (exists f, fst (sample_detect (sample_detector Sample.short_series anomaly_only))
               = Computed f).
Proof.
  split; [reflexivity|]. intros [f Hf]. discriminate Hf.
Qed.

Lemma margin_narrows_anomalies_witness :
  exists f f0,
    sample_compute (sample_detector Sample.series anomaly_and_margin) = Ok f /\
    score_pass Sample.EPS Sample.average_at
               (sample_detector Sample.series anomaly_and_margin) = Ok f0 /\
    incl (where_ (IsAnomaly f)) (where_ (IsAnomaly f0)).
Proof.
  destruct (sample_compute_ok anomaly_and_margin) as [f Hf].
  destruct (margin_narrows_anomalies Z Sample.EPS Sample.average_at Sample.deanomaly_at
              Sample.boundary_unit_at Sample.anomaly_score_at Sample.calculate_margin
              (sample_detector Sample.series anomaly_and_margin) f eq_refl Hf)
    as (f0 & m & H0 & _ & _ & _ & Hincl).
  exists f, f0. auto.
Defined.

Lemma predict_next_slope_formula_witness :
  predict_next [1; 2; 3]%R = Ok (predict_next_formula [1; 2; 3]%R) /\
  predict_next [1; 2; 3]%R = Ok 4%R.
Proof.
  apply (predict_next_slope_formula [1; 2; 3]%R). simpl. lia.
Defined.

Lemma extend_series_shape_witness :
  exists extended,
    extend_series [1; 2; 3; 4]%R 2 1 = Ok extended /\
    Z.of_nat (length extended) = 6%Z /\
    firstn 4 extended = [1; 2; 3; 4]%R.
Proof.
  eexists. split; [apply extend_series_ok; simpl; lia|].
  destruct (extend_series_shape [1; 2; 3; 4]%R 2 1 _ ltac:(lia)
              (extend_series_ok [1; 2; 3; 4]%R 2 1 ltac:(lia) ltac:(simpl; lia)))
    as (Hlen & Hpre & _).
  split; [exact Hlen | exact Hpre].
Defined.



Lemma extend_series_needs_three_witness :
  (length [1; 2]%R = 2%nat ->
   succeeds (predict_next [1; 2]%R) /\
   extend_series [1; 2]%R 5 5 = Raise (ValueError "data should contain at least 2 numbers")) /\
  (succeeds (extend_series [1; 2]%R 5 5) <-> (3 <= length [1; 2]%R)%nat).
Proof.
  apply (extend_series_needs_three [1; 2]%R 5 5). lia.
Defined.

(** ** Further properties on concrete series *)

Lemma sample_eps_positive : (0 < Sample.EPS)%R.
Proof. unfold Sample.EPS. lra. Qed.

Lemma sample_average_constant (mu : R) (n i : nat) :
  (i < n)%nat -> Sample.average_at (repeat mu n) 3 i = mu.
Proof.
  intros Hi. unfold Sample.average_at. change (Z.to_nat 3) with 3%nat.
  set (t := Nat.min 3 (S i)).
  assert (Ht : (1 <= t <= S i)%nat) by (unfold t; lia).
  assert (Hskip : forall k m, skipn k (repeat mu m) = repeat mu (m - k)).
  { induction k as [|k IH]; intros [|m]; simpl; auto. }
  rewrite Hskip, firstn_repeat by lia.
  rewrite sum_sigma, repeat_length.
  rewrite (sigma_ext t _ (fun _ => mu)) by (intros; now apply repeat_nth).
  rewrite sigma_const. field. apply not_0_INR. lia.
Qed.

Lemma sample_compute_total (series : list (Z * R)) (threshold : R)
      (detect_mode : DetectMode) :
  (3 <= length series)%nat ->
  exists f,
    @__detect Z Sample.EPS Sample.average_at Sample.deanomaly_at Sample.boundary_unit_at
              Sample.anomaly_score_at Sample.calculate_margin
              (__init__ series threshold 3 3 99%R detect_mode) = Ok f.
Proof.
  intros H3.
  destruct (__detect_ok Z Sample.EPS Sample.average_at Sample.deanomaly_at
              Sample.boundary_unit_at Sample.anomaly_score_at Sample.calculate_margin
              series threshold 3 3 99%R detect_mode H3) as (f & _ & Hf & _).
  exists f. exact Hf.
Qed.

Lemma spectral_score_pointwise_witness :
  (0 < Rmax (nth 0 (average_filter Sample.average_at [1; 2; 3]%R 3) 0) Sample.EPS)%R.
Proof.
  exact (proj1 (spectral_score_pointwise Z Sample.EPS Sample.average_at
                  (sample_detector Sample.series anomaly_only) [1; 2; 3]%R 0
                  sample_eps_positive ltac:(simpl; lia))).
Defined.

Lemma spectral_residual_transform_shape_witness :
  exists mags,
    spectral_residual_transform Sample.EPS Sample.average_at
      (sample_detector Sample.series anomaly_only) [1; 2; 4]%R = Ok mags /\
    length mags = 3%nat /\ Forall (fun m => 0 <= m)%R mags.
Proof.
  apply (proj2 (spectral_residual_transform_shape Z Sample.EPS Sample.average_at
                  (sample_detector Sample.series anomaly_only) [1; 2; 4]%R
                  (Rlt_le _ _ sample_eps_positive))).
  discriminate.
Defined.

Lemma threshold_extremes_witness :
  exists f,
    sample_compute (@__init__ Z Sample.series 2%R 3 3 99%R anomaly_and_margin) = Ok f /\
    Forall (eq false) (IsAnomaly f).
Proof.
  destruct (sample_compute_total Sample.series 2%R anomaly_and_margin sample_series_long)
    as [f Hf].
  exists f. split; [exact Hf|].
  apply (proj1 (threshold_extremes _ _ _ _ _ _ _ _ f sample_eps_positive Hf)). simpl. lra.
Defined.

Lemma threshold_monotone_witness :
  exists f1 f2,
    sample_compute (@__init__ Z Sample.series (1 / 10)%R 3 3 99%R anomaly_only) = Ok f1 /\
    sample_compute (@__init__ Z Sample.series (3 / 10)%R 3 3 99%R anomaly_only) = Ok f2 /\
    AnomalyScore f1 = AnomalyScore f2 /\
    incl (where_ (IsAnomaly f2)) (where_ (IsAnomaly f1)).
Proof.
  destruct (sample_compute_total Sample.series (1 / 10)%R anomaly_only sample_series_long)
    as [f1 H1].
  destruct (sample_compute_total Sample.series (3 / 10)%R anomaly_only sample_series_long)
    as [f2 H2].
  exists f1, f2.
  assert (Ht : (1 / 10 <= 3 / 10)%R) by lra.
  destruct (threshold_monotone _ _ _ _ _ _ _ _ _ _ _ _ _ f1 f2 Ht H1 H2)
    as (_ & Hs & Hincl).
  auto.
Defined.

Lemma margin_flag_exact_witness :
  exists f,
    sample_compute (sample_detector Sample.series anomaly_and_margin) = Ok f /\
    length (IsAnomaly f) = 3%nat.
Proof.
  destruct (sample_compute_ok anomaly_and_margin) as [f Hf].
  destruct (margin_flag_exact _ _ _ _ _ _ _
              (sample_detector Sample.series anomaly_and_margin) f eq_refl Hf)
    as (f0 & m & _ & _ & Hl & _).
  exists f. split; [exact Hf|exact Hl].
Defined.

Lemma margin_boundaries_witness :
  exists f m,
    sample_compute (sample_detector Sample.series anomaly_and_margin) = Ok f /\
    Margin f = Some m /\ length (ExpectedValue m) = 3%nat.
Proof.
  destruct (sample_compute_ok anomaly_and_margin) as [f Hf].
  destruct (margin_boundaries _ _ _ _ _ _ _
              (sample_detector Sample.series anomaly_and_margin) f eq_refl Hf)
    as (f0 & m & _ & Hm & Hl & _).
  exists f, m. auto.
Defined.

Lemma predict_next_progression_witness :
  predict_next (progression 1 2 0 3) = Ok (1 + INR (0 + 3) * 2)%R /\
  predict_next (repeat 1%R 3) = Ok 1%R.
Proof. apply predict_next_progression. lia. Defined.

Lemma predict_next_affine_witness :
  predict_next (map (fun v => 2 * v + 1)%R [1; 2; 3]%R)
  = Ok (2 * predict_next_formula [1; 2; 3]%R + 1)%R.
Proof.
  apply predict_next_affine. apply predict_next_value. simpl. lia.
Defined.

Lemma extend_series_progression_witness :
  extend_series (progression 1 2 0 3) 5 5
  = Ok (progression 1 2 0 3 ++ repeat (1 + INR (3 - 1) * 2)%R (Z.to_nat 5)) /\
  extend_series (repeat 1%R 3) 5 5 = Ok (repeat 1%R 3 ++ repeat 1%R (Z.to_nat 5)).
Proof. apply extend_series_progression; lia. Defined.

Lemma extend_series_local_witness :
  extend_series ([9] ++ [1; 2; 3; 4])%R 2 1
  = (extended <- extend_series [1; 2; 3; 4]%R 2 1;; Ok ([9%R] ++ extended)).
Proof. apply extend_series_local. simpl. lia. Defined.



Lemma expected_value_keeps_total_witness :
  exists exps,
    calculate_expected_value Sample.deanomaly_at
      (sample_detector Sample.series anomaly_and_margin) [1%nat] = Ok exps /\
    Py.sum (map real exps)
    = Py.sum (deanomaly_entire Sample.deanomaly_at [1; 2; 4]%R [1%nat]).
Proof.
  apply (expected_value_keeps_total Z Sample.deanomaly_at
           (sample_detector Sample.series anomaly_and_margin) [1%nat]).
  discriminate.
Defined.

Lemma detect_mode_comparison_witness :
  exists f_only f_margin,
    sample_compute (sample_detector Sample.series anomaly_only) = Ok f_only /\
    sample_compute (sample_detector Sample.series anomaly_and_margin) = Ok f_margin /\
    Mag f_margin = Mag f_only /\
    incl (where_ (IsAnomaly f_margin)) (where_ (IsAnomaly f_only)).
Proof.
  destruct (sample_compute_ok anomaly_only) as [f1 H1].
  destruct (sample_compute_ok anomaly_and_margin) as [f2 H2].
  destruct (detect_mode_comparison _ _ _ _ _ _ _ _ _ _ _ _ f1 f2 H1 H2)
    as (_ & _ & _ & Hmag & _ & _ & Hincl).
  exists f1, f2. auto.
Defined.

Lemma timestamps_are_copied_witness :
  exists f,
    sample_compute (sample_detector Sample.series anomaly_only) = Ok f /\
    Timestamp f = [0; 1; 2]%Z /\
    sample_compute (sample_detector Sample.later_series anomaly_only)
    = Ok {| AnomalyId := AnomalyId f; Timestamp := [10; 11; 12]%Z; Value := Value f;
            Mag := Mag f; AnomalyScore := AnomalyScore f; IsAnomaly := IsAnomaly f;
            Margin := Margin f |}.
Proof.
  destruct (sample_compute_ok anomaly_only) as [f Hf].
  destruct (timestamps_are_copied _ _ _ _ _ _ _ Sample.series Sample.later_series
              _ _ _ _ _ f eq_refl Hf) as [Hts H2].
  exists f. split; [exact Hf|]. split; [exact Hts|exact H2].
Defined.
